(** * Oracle feeder: the voting loop of [feeder/src/index.ts]

    A shallow embedding of the price aggregator ([getPrices]), the chain
    queries ([queryAccount], [queryTx], [waitTx]), the key update
    ([updateKey]) and one iteration of the [while (true)] loop of [vote],
    followed by the properties of the specification that concern them and
    by further properties of the code.

    Conventions.
    - Every value the loop reads from the outside (HTTP replies, the clock,
      the random salts, the signer) is a field of a [World] record: one
      [World] per loop iteration.
    - Block heights and periods are integers ([Z]): the decimal strings of
      the chain are taken as already parsed by [parseInt]/[Number].  On
      non-negative integers below 2^53 [Math.floor (a / b)] is [a / b] and
      [a % b] is [Z.rem a b].
    - A JavaScript object used as a dictionary ([prevotePrices],
      [prevoteSalts], [priceUpdateMap], [priceUpdateSaltMap]) is a
      [gmap string string]; currency codes are assumed not to be names of
      [Object.prototype] members.
    - Strings are byte strings; [toLowerCase] folds the ASCII letters. *)

From Stdlib Require Import ZArith Lia Ascii String Sorted.
From stdpp Require Import base option list strings gmap pretty.
From Stdlib Require PrimFloat FloatOps SpecFloat Uint63.

Local Open Scope string_scope.
Local Open Scope list_scope.
Local Open Scope Z_scope.

(** ** JavaScript values and control flow *)

(** The part of a JSON value the code looks at. *)
Inductive JsVal :=
| JUndefined
| JNull
| JNumber (z : Z)
| JString (s : string).

(** [typeof v === 'string'] *)
Definition typeof_string (v : JsVal) : bool :=
  match v with JString _ => true | _ => false end.

(** What a [throw] carries: the sentinel string ['skip'] or anything else. *)
Inductive Exn :=
| SkipSentinel
| Failure (message : string).

(** Result of a computation that may throw. *)
Inductive Res (A : Type) :=
| Returned (a : A)
| Thrown (e : Exn).
Arguments Returned {A} a.
Arguments Thrown {A} e.

#[global] Instance Res_ret : MRet Res := fun _ a => Returned a.
#[global] Instance Res_bind : MBind Res := fun _ _ f m =>
  match m with Returned a => f a | Thrown e => Thrown e end.

(** [p.catch(err => { console.error(err.message); throw 'skip'; })] *)
Definition catch_skip {A} (m : Res A) : Res A :=
  match m with Returned a => Returned a | Thrown _ => Thrown SkipSentinel end.

(** ** Strings *)

Definition lower_ascii (a : ascii) : ascii :=
  let n := N_of_ascii a in
  if ((65 <=? n) && (n <=? 90))%N then ascii_of_N (n + 32) else a.

Fixpoint toLowerCase (s : string) : string :=
  match s with
  | EmptyString => EmptyString
  | String a r => String (lower_ascii a) (toLowerCase r)
  end.

(** [s.split(sep)] for a one-character separator: never the empty array. *)
Fixpoint split (sep : ascii) (s : string) : list string :=
  match s with
  | EmptyString => [EmptyString]
  | String a r =>
      if Ascii.eqb a sep then EmptyString :: split sep r
      else match split sep r with
           | [] => [String a EmptyString]
           | h :: t => String a h :: t
           end
  end.

(** [l.indexOf(x)]: position of the first element equal to [x], or -1. *)
Fixpoint indexOf (l : list string) (x : string) : Z :=
  match l with
  | [] => -1
  | y :: r =>
      if String.eqb y x then 0
      else let i := indexOf r x in if i =? -1 then -1 else i + 1
  end.

(** [l.join(sep)] for a one-character separator. *)
Fixpoint join (sep : ascii) (l : list string) : string :=
  match l with
  | [] => EmptyString
  | [x] => x
  | x :: r => x +:+ String sep (join sep r)
  end.

(** The character [sep] does not occur in [s]. *)
Fixpoint free_of (sep : ascii) (s : string) : bool :=
  match s with
  | EmptyString => true
  | String a r => negb (Ascii.eqb a sep) && free_of sep r
  end.

(** ** Price aggregator *)

Record Price := { currency : string; price : string }.

(** The [created_at] field of a reply.  For a string, [new Date(s).getTime()]
    is carried along: [None] is [NaN] (an unparseable date). *)
Inductive CreatedAt :=
| CreatedNotString
| CreatedString (getTime : option Z).

(** The [data] of a price source reply; [prices = None] when the field is
    not an array. *)
Record PriceData := { created_at : CreatedAt; prices : option (list Price) }.

(** [Bluebird.some(promises, 1)]: the requests are listed in the order in
    which they settle, [None] for one that rejects.  The result is the array
    holding the first fulfilled value; the promise rejects when none
    fulfils. *)
Fixpoint some_1 (settled : list (option PriceData)) : Res (list PriceData) :=
  match settled with
  | [] => Thrown (Failure "aggregate error")
  | Some d :: _ => Returned [d]
  | None :: rest => some_1 rest
  end.

(** [Date.now() - new Date(data.created_at).getTime() > 30 * 1000];
    a comparison with [NaN] is false. *)
Definition too_old (now : Z) (t : option Z) : bool :=
  match t with
  | Some ms => 30 * 1000 <? now - ms
  | None => false
  end.

(** The callback given to [results.filter]. *)
Definition acceptable (now : Z) (data : PriceData) : bool :=
  match created_at data, prices data with
  | CreatedString t, Some _ => negb (too_old now t)
  | _, _ => false
  end.

Definition getPrices (now : Z) (settled : list (option PriceData))
  : Res (list Price) :=
  results ← some_1 settled;
  match List.filter (acceptable now) results with
  | [] => Thrown (Failure "could not fetch any price")
  | r :: _ =>
      match prices r with
      | Some ps => Returned ps
      | None => Thrown (Failure "prices is undefined")
      end
  end.

(** ** Chain client *)

Definition secTimeout : nat := 45.

(** [res.data.value] of [/auth/accounts/{address}], as returned by
    [queryAccount]: the two fields are handed on untouched. *)
Record Account := { account_number : JsVal; sequence : JsVal }.

Inductive AccountReply :=
| AccountRejected                         (* [ax.get] rejects *)
| AccountNoValue                          (* [res.data.value] is undefined *)
| AccountValue (number seq : JsVal).

Definition queryAccount (reply : AccountReply) : Res Account :=
  match reply with
  | AccountRejected => Thrown (Failure "request failed")
  | AccountNoValue => Thrown (Failure "cannot destructure undefined")
  | AccountValue number seq =>
      if negb (typeof_string number) || negb (typeof_string seq)
      then Thrown (Failure "Failed to fetch account number and sequence")
      else Returned {| account_number := number; sequence := seq |}
  end.

(** The [data] of a [/txs/{hash}] reply. *)
Record TxQueryData := { tx_code : option Z; height : Z }.

(** One call of [queryTx]. *)
Inductive TxPoll :=
| TxFound (d : TxQueryData)
| TxNotFound          (* rejected with an HTTP status: handler yields undefined *)
| TxNoResponse.       (* rejected without [err.response]: the handler throws *)

Definition queryTx (poll : TxPoll) : Res (option TxQueryData) :=
  match poll with
  | TxFound d => Returned (Some d)
  | TxNotFound => Returned None
  | TxNoResponse => Thrown (Failure "TypeError: err.response is undefined")
  end.

(** [for (let t = 0; t < secTimeout; t += 1)]: [n] polls are left, the next
    one is poll number [t]. *)
Fixpoint waitTx_from (polls : nat → TxPoll) (t n : nat)
  : Res (option TxQueryData) :=
  match n with
  | O => Returned None
  | S n' =>
      txQueryData ← queryTx (polls t);
      match txQueryData with
      | Some d => Returned (Some d)
      | None => waitTx_from polls (S t) n'
      end
  end.

Definition waitTx (polls : nat → TxPoll) : Res (option TxQueryData) :=
  waitTx_from polls 0 secTimeout.

(** The [data] of a [POST /txs] reply. *)
Record BroadcastData := { bc_code : option Z; txhash : string }.

(** [broadcast(...).catch(err => ...)]: the handler logs and yields
    undefined, except that it reads [err.response.data] of an axios error and
    so throws when that error carries no response. *)
Inductive BroadcastReply :=
| BroadcastAccepted (d : BroadcastData)
| BroadcastHttpError
| BroadcastNoResponse
| BroadcastOtherError.

Definition broadcast (reply : BroadcastReply) : Res (option BroadcastData) :=
  match reply with
  | BroadcastAccepted d => Returned (Some d)
  | BroadcastHttpError => Returned None
  | BroadcastNoResponse => Thrown (Failure "TypeError: err.response is undefined")
  | BroadcastOtherError => Returned None
  end.

(** [!data.code]: the code is absent or zero. *)
Definition no_code (c : option Z) : bool :=
  match c with None => true | Some z => z =? 0 end.

(** ** Binary64 arithmetic of the fee *)

Module Float64.

(** A positive double is [m * 2^e] with [m < 2^53].  [round53 p] is the
    integer nearest to [p] with at most 53 significant bits, ties to the
    even significand: the rounding of every IEEE-754 operation, on the
    scaled integer [p] (no overflow or subnormals in the range used). *)
Definition round53 (p : Z) : Z :=
  let s := Z.log2 p - 52 in
  if s <=? 0 then p
  else
    let q := Z.shiftr p s in
    let r := p mod 2 ^ s in
    let half := 2 ^ (s - 1) in
    let q' := if (half <? r) || ((r =? half) && Z.odd q) then q + 1 else q in
    Z.shiftl q' s.

(** The literal [0.015] denotes the double [significand / 2^scale]. *)
Definition significand_0_015 : Z := 1080863910568919.
Definition scale : Z := 56.

(** [x * 0.015] for an integer [x], as a multiple of [2^-scale]. *)
Definition times_0_015 (x : Z) : Z := round53 (x * significand_0_015).

(** [Math.ceil] of [v / 2^scale]. *)
Definition ceil (v : Z) : Z := - ((- v) / 2 ^ scale).

(** The same product on the primitive binary64 numbers of Rocq, to test
    [times_0_015] against; [15 / 1000] rounds to the double that the
    literal [0.015] denotes. *)
Definition primitive_times_0_015 (x : Z) : option Z :=
  let c := PrimFloat.div (PrimFloat.of_uint63 (Uint63.of_Z 15))
                         (PrimFloat.of_uint63 (Uint63.of_Z 1000)) in
  match FloatOps.Prim2SF
          (PrimFloat.mul (PrimFloat.of_uint63 (Uint63.of_Z x)) c) with
  | SpecFloat.S754_finite false m e => Some (Z.shiftl (Z.pos m) (e + scale))
  | _ => None
  end.

End Float64.

(** ** Messages and transactions *)

(** Modelled from the spec: the encoder module [./msg] is not part of the
    sources.  A message is the record of the arguments given to
    [generateVoteMsg] and [generatePrevoteMsg] ("Vote: {exchange_rate, salt,
    denom, feeder, validator}", "Prevote: {hash, denom, feeder,
    validator}").  The salt of a vote is read from a dictionary and may be
    undefined. *)
Inductive Msg :=
| MsgExchangeRateVote (exchange_rate : string) (salt : option string)
    (denom feeder validator : string)
| MsgExchangeRatePrevote (hash denom feeder validator : string).

Definition is_vote (m : Msg) : bool :=
  match m with MsgExchangeRateVote _ _ _ _ _ => true | _ => false end.

Record Coin := { amount : string; coin_denom : string }.
Record Fee := { fee_amount : list Coin; gas : string }.

(** Modelled from the spec: [generateStdTx(msgs, fees, memo)] of [./msg],
    "{ msg, fee, signatures, memo }" before signing. *)
Record StdTx := { msg : list Msg; fee : Fee; memo : string }.

Record SignMeta :=
  { chain_id : string; meta_account_number : JsVal; meta_sequence : JsVal }.

(** Modelled from the spec: [createSignedTx] and [createBroadcastBody] of
    [./wallet], "POST /txs with body { tx, mode }". *)
Record BroadcastReq := { tx : StdTx; signature : string; mode : string }.

(** [gas] and [fees] of lines 311-312. *)
Definition gas_of (n : nat) : Z := 50000 + Z.of_nat n * 7500.

Definition fee_of (n : nat) : Z :=
  Float64.ceil (Float64.times_0_015 (gas_of n)).

Definition fees (n : nat) : Fee :=
  {| fee_amount := [{| amount := pretty (fee_of n); coin_denom := "ukrw" |}];
     gas := pretty (gas_of n) |}.

(** ** The voting loop *)

Record Voter := { terraAddress : string; terraValAddress : string }.

(** The command line arguments the loop reads; [validator] is [None] when
    the option was not given. *)
Record Args :=
  { chainID : string; denoms : string; validator : option (list string) }.

(** The variables that live across iterations (lines 233-235). *)
Record State :=
  { prevotePrices : gmap string string;
    prevoteSalts : gmap string string;
    prevotePeriod : option Z }.

Definition initial : State :=
  {| prevotePrices := ∅; prevoteSalts := ∅; prevotePeriod := None |}.

(** [prevotePeriod && test(prevotePeriod)]: undefined and 0 are falsy. *)
Definition and_then (p : option Z) (test : Z → bool) : bool :=
  match p with Some z => negb (z =? 0) && test z | None => false end.

(** Everything one iteration reads from outside the process. *)
Record World :=
  { startTime : Z;                          (* [Date.now()], line 238 *)
    latestBlock : option Z;                 (* height; [None]: the query throws *)
    settled : list (option PriceData);      (* price requests, as they settle *)
    priceTime : Z;                          (* [Date.now()], line 185 *)
    accountReply : AccountReply;
    salts : nat → string;                   (* the salts, in the order drawn *)
    sign : StdTx → SignMeta → option string;  (* [None]: [wallet.sign] throws *)
    broadcastReply : BroadcastReply;
    txPolls : nat → TxPoll;
    sleepTime : Z }.                        (* the clock when [try] is left *)

(** ** Key update *)

(** The strings [updateKey] handles are those the prompts return, with
    any character in them: they are kept as JavaScript has them, sequences
    of UTF-16 code units ([list N]), so that [length] is [.length] and
    equality is [===]. *)

(** The code units of an ASCII string. *)
Fixpoint units (s : string) : list N :=
  match s with
  | EmptyString => []
  | String a r => N_of_ascii a :: units r
  end.

(** White space and line terminators of ECMAScript, what [trim] strips:
    tab to carriage return, space, no-break space, U+1680, U+2000 to U+200A,
    U+2028, U+2029, U+202F, U+205F, U+3000 and U+FEFF. *)
Definition is_white (u : N) : bool :=
  (((9 <=? u) && (u <=? 13)) || (u =? 32) || (u =? 160) || (u =? 5760)
   || ((8192 <=? u) && (u <=? 8202)) || (u =? 8232) || (u =? 8233)
   || (u =? 8239) || (u =? 8287) || (u =? 12288) || (u =? 65279))%N.

Fixpoint trimStart (s : list N) : list N :=
  match s with
  | [] => []
  | u :: r => if is_white u then trimStart r else s
  end.

Fixpoint trimEnd (s : list N) : list N :=
  match s with
  | [] => []
  | u :: r =>
      match trimEnd r with
      | [] => if is_white u then [] else [u]
      | r' => u :: r'
      end
  end.

(** [s.trim()] *)
Definition trim (s : list N) : list N := trimEnd (trimStart s).

(** [s.split(sep)] for a separator of one code unit. *)
Fixpoint split_units (sep : N) (s : list N) : list (list N) :=
  match s with
  | [] => [[]]
  | u :: r =>
      if (u =? sep)%N then [] :: split_units sep r
      else match split_units sep r with
           | [] => [[u]]
           | h :: t => (u :: h) :: t
           end
  end.

(** [l.join(sep)] for a separator of one code unit. *)
Fixpoint join_units (sep : N) (l : list (list N)) : list N :=
  match l with
  | [] => []
  | [x] => x
  | x :: r => x ++ sep :: join_units sep r
  end.

(** The code unit [sep] does not occur in [s]. *)
Definition free_of_unit (sep : N) (s : list N) : bool :=
  forallb (fun u => negb (u =? sep)%N) s.

(** [a === b] on strings. *)
Fixpoint same_units (a b : list N) : bool :=
  match a, b with
  | [], [] => true
  | u :: a', v :: b' => (u =? v)%N && same_units a' b'
  | _, _ => false
  end.

(** What [updateKey] does with the three answers it prompts for: an error
    message on the console, or the call
    [keystore.importKey(args.keystore, password, mnemonic)]. *)
Inductive KeyUpdate :=
| KeyRefused (message : string)
| KeyImported (keystore password mnemonic : list N).

(** Lines 102-125.  The mnemonic is prompted for only once the two
    passphrase tests have passed. *)
Definition updateKey (keystore password confirm mnemonic : list N)
  : KeyUpdate :=
  if (length password <? 8)%nat
  then KeyRefused "ERROR: password must be at least 8 characters"
  else if negb (same_units password confirm)
  then KeyRefused "ERROR: passphrases don't matchPassword confirm failed"
  else if negb (length (split_units 32 (trim mnemonic)) =? 24)%nat
  then KeyRefused "Error: Mnemonic is not valid."
  else KeyImported keystore password mnemonic.

(** ** Sample data for the scenarios *)

Module Sample.

Definition krw : Price := {| currency := "krw"; price := "1180.5" |}.
Definition usd : Price := {| currency := "usd"; price := "1.10" |}.
Definition usd' : Price := {| currency := "usd"; price := "1.30" |}.

(** A reply created [age] milliseconds before [now]. *)
Definition reply (now age : Z) (ps : list Price) : PriceData :=
  {| created_at := CreatedString (Some (now - age)); prices := Some ps |}.

(** The canonical string of the commitment, standing for its hash. *)
Definition hash (salt price denom valAddr : string) : string :=
  salt +:+ ":" +:+ price +:+ ":" +:+ denom +:+ ":" +:+ valAddr.

Definition voter : Voter :=
  {| terraAddress := "terra1feeder"; terraValAddress := "terravaloper1" |}.

Definition args (denoms : string) : Args :=
  {| chainID := "columbus-2"; denoms := denoms; validator := None |}.

(** An iteration in which everything succeeds: the block is at height
    [h], the source answers [ps], the transaction is found at the third
    poll in a block of height [included]. *)
Definition world (h : Z) (ps : list Price) (included : Z) : World :=
  {| startTime := 0;
     latestBlock := Some h;
     settled := [Some (reply 500 1000 ps)];
     priceTime := 500;
     accountReply := AccountValue (JString "7") (JString "12");
     salts := fun n => pretty (Z.of_nat n);
     sign := fun _ _ => Some "signature";
     broadcastReply := BroadcastAccepted {| bc_code := None; txhash := "AB12" |};
     txPolls := fun t => if (t <? 2)%nat then TxNotFound
                         else TxFound {| tx_code := None; height := included |};
     sleepTime := 3000 |}.

Definition with_account (r : AccountReply) (w : World) : World :=
  {| startTime := startTime w; latestBlock := latestBlock w;
     settled := settled w; priceTime := priceTime w; accountReply := r;
     salts := salts w; sign := sign w; broadcastReply := broadcastReply w;
     txPolls := txPolls w; sleepTime := sleepTime w |}.

Definition with_settled (l : list (option PriceData)) (w : World) : World :=
  {| startTime := startTime w; latestBlock := latestBlock w;
     settled := l; priceTime := priceTime w;
     accountReply := accountReply w; salts := salts w; sign := sign w;
     broadcastReply := broadcastReply w; txPolls := txPolls w;
     sleepTime := sleepTime w |}.

Definition with_broadcast (r : BroadcastReply) (w : World) : World :=
  {| startTime := startTime w; latestBlock := latestBlock w;
     settled := settled w; priceTime := priceTime w;
     accountReply := accountReply w; salts := salts w; sign := sign w;
     broadcastReply := r; txPolls := txPolls w; sleepTime := sleepTime w |}.

(** The latest block query fails after two milliseconds. *)
Definition unreachable : World :=
  {| startTime := 1000; latestBlock := None; settled := []; priceTime := 1000;
     accountReply := AccountRejected; salts := fun _ => "";
     sign := fun _ _ => None; broadcastReply := BroadcastOtherError;
     txPolls := fun _ => TxNotFound; sleepTime := 1002 |}.

End Sample.

Section Feeder.

(** [msg.generateVoteHash(salt, price, denom, valAddr)], defined by the
    chain and by the encoder module. *)
Variable generateVoteHash : string → string → string → string → string.

Variable args : Args.
Variable voter : Voter.
Variable oracleVotePeriod : Z.

Definition denomArray : list string :=
  List.map toLowerCase (split "," (denoms args)).

(** [args.validator || [voter.terraValAddress]] *)
Definition valAddrs : list string :=
  match validator args with
  | Some l => l
  | None => [terraValAddress voter]
  end.

(** [denomArray.indexOf(currency.toLowerCase()) === -1] *)
Definition filtered_out (c : string) : bool :=
  indexOf denomArray (toLowerCase c) =? -1.

(** Lines 264-279: [prices.forEach] pushing onto [voteMsgs].  Reading
    [prevotePrices[currency].toString()] throws when the entry is
    undefined. *)
Fixpoint vote_forEach (st : State) (ps : list Price) (voteMsgs : list Msg)
  : Res (list Msg) :=
  match ps with
  | [] => Returned voteMsgs
  | p :: rest =>
      if filtered_out (currency p) then vote_forEach st rest voteMsgs
      else
        let denom := "u" +:+ toLowerCase (currency p) in
        match prevotePrices st !! currency p with
        | None => Thrown (Failure "TypeError: cannot read toString of undefined")
        | Some remembered =>
            vote_forEach st rest
              (voteMsgs ++
               List.map (fun valAddr =>
                           MsgExchangeRateVote remembered
                             (prevoteSalts st !! currency p) denom
                             (terraAddress voter) valAddr)
                        valAddrs)
        end
  end.

(** What the second [prices.forEach] (lines 285-306) builds up; [drawn]
    counts the salts drawn so far. *)
Record Prevotes :=
  { prevoteMsgs : list Msg;
    priceUpdateMap : gmap string string;
    priceUpdateSaltMap : gmap string string;
    drawn : nat }.

Definition prevote_step (draw : nat → string) (acc : Prevotes) (p : Price)
  : Prevotes :=
  if filtered_out (currency p) then acc
  else
    let salt := draw (drawn acc) in
    let denom := "u" +:+ toLowerCase (currency p) in
    {| prevoteMsgs :=
         prevoteMsgs acc ++
         List.map (fun valAddr =>
                     MsgExchangeRatePrevote
                       (generateVoteHash salt (price p) denom valAddr)
                       denom (terraAddress voter) valAddr)
                  valAddrs;
       priceUpdateMap := <[currency p := price p]> (priceUpdateMap acc);
       priceUpdateSaltMap := <[currency p := salt]> (priceUpdateSaltMap acc);
       drawn := S (drawn acc) |}.

Definition prevote_forEach (draw : nat → string) (ps : list Price)
  : Prevotes :=
  fold_left (prevote_step draw) ps
    {| prevoteMsgs := []; priceUpdateMap := ∅; priceUpdateSaltMap := ∅;
       drawn := O |}.

(** What lines 241-308 leave for the rest of the iteration. *)
Record Plan :=
  { votePeriod : Z;
    account : Account;
    voteMsgs : list Msg;
    prevotes : Prevotes }.

Definition msgs (pl : Plan) : list Msg :=
  voteMsgs pl ++ prevoteMsgs (prevotes pl).

(** Lines 241-308. *)
Definition prepare (st : State) (w : World) : Res Plan :=
  currentBlockHeight ←
    match latestBlock w with
    | Some h => Returned h
    | None => Thrown (Failure "latest block query failed")
    end;
  let votePeriod := currentBlockHeight / oracleVotePeriod in
  let indexInVotePeriod := Z.rem currentBlockHeight oracleVotePeriod in
  if (indexInVotePeriod <? oracleVotePeriod - 3)
     || and_then (prevotePeriod st) (fun prevotePeriod =>
                                       prevotePeriod =? votePeriod)
  then Thrown SkipSentinel
  else
    prices ← catch_skip (getPrices (priceTime w) (settled w));
    account ← catch_skip (queryAccount (accountReply w));
    voteMsgs ←
      (if and_then (prevotePeriod st) (fun prevotePeriod =>
                                         votePeriod - prevotePeriod =? 1)
       then vote_forEach st prices []
       else Returned []);
    Returned {| votePeriod := votePeriod; account := account;
                voteMsgs := voteMsgs;
                prevotes := prevote_forEach (salts w) prices |}.

(** [Object.assign(prevotePrices, priceUpdateMap)] and the two lines that
    follow it (341-343). *)
Definition remember (st : State) (pv : Prevotes) (q : TxQueryData) : State :=
  {| prevotePrices := priceUpdateMap pv ∪ prevotePrices st;
     prevoteSalts := priceUpdateSaltMap pv ∪ prevoteSalts st;
     prevotePeriod := Some (height q / oracleVotePeriod) |}.

(** Lines 337-352, once [data] is known. *)
Definition confirm (st : State) (w : World) (pv : Prevotes)
           (data : option BroadcastData) : Res State :=
  match data with
  | Some d =>
      if no_code (bc_code d) then
        txQueryData ← waitTx (txPolls w);
        match txQueryData with
        | Some q => if no_code (tx_code q)
                    then Returned (remember st pv q)
                    else Returned st
        | None => Returned st
        end
      else Returned st
  | None => Returned st
  end.

(** The transaction of lines 311-320. *)
Definition stdTx (pl : Plan) : StdTx :=
  {| msg := msgs pl; fee := fees (length (msgs pl));
     memo := "Voting from terra feeder" |}.

Definition signMeta (pl : Plan) : SignMeta :=
  {| chain_id := chainID args;
     meta_account_number := account_number (account pl);
     meta_sequence := sequence (account pl) |}.

(** Lines 310-353: the request handed to [broadcast], if the iteration
    got that far, and the state the [try] block ends with. *)
Definition submit (st : State) (w : World) (pl : Plan)
  : option BroadcastReq * Res State :=
  if (length (msgs pl) =? 0)%nat then (None, Returned st)
  else
    match sign w (stdTx pl) (signMeta pl) with
    | None => (None, Thrown (Failure "sign failed"))
    | Some signature =>
        (Some {| tx := stdTx pl; signature := signature; mode := "sync" |},
         data ← broadcast (broadcastReply w); confirm st w pl.(prevotes) data)
    end.

(** How the [try] block ended. *)
Inductive Ending :=
| Normal                       (* fell through to the sleep *)
| Skip                         (* ['skip'] was thrown *)
| Restart (message : string).  (* anything else was thrown: [continue] *)

(** One pass through the body of [while (true)]. *)
Record Iteration :=
  { next : State;                 (* the variables after the iteration *)
    ending : Ending;
    sent : option BroadcastReq;   (* the body posted to [/txs], if any *)
    delay : option Z }.           (* argument of [Bluebird.delay], if called *)

(** [Math.max(5000, 6000 - (Date.now() - startTime))], line 362. *)
Definition pace (w : World) : Z :=
  Z.max 5000 (6000 - (sleepTime w - startTime w)).

(** Lines 354-362: the [catch] clause and the sleep. *)
Definition finish (st : State) (w : World) (sent : option BroadcastReq)
           (r : Res State) : Iteration :=
  match r with
  | Returned st' =>
      {| next := st'; ending := Normal; sent := sent; delay := Some (pace w) |}
  | Thrown SkipSentinel =>
      {| next := st; ending := Skip; sent := sent; delay := Some (pace w) |}
  | Thrown (Failure m) =>
      {| next := st; ending := Restart m; sent := sent; delay := None |}
  end.

Definition iteration (st : State) (w : World) : Iteration :=
  match prepare st w with
  | Returned pl => let '(sent, r) := submit st w pl in finish st w sent r
  | Thrown e => finish st w None (Thrown e)
  end.

(** The loop of [vote], over the worlds of its first iterations. *)
Fixpoint vote (st : State) (ws : list World) : list Iteration :=
  match ws with
  | [] => []
  | w :: rest => let it := iteration st w in it :: vote (next it) rest
  end.

(** The variables after the iterations of [ws]. *)
Definition final (st : State) (ws : list World) : State :=
  fold_left (fun s w => next (iteration s w)) ws st.

(** *** Vocabulary of the specification *)

(** The confirmed transaction of an iteration: the prevotes it carries
    and the reply of [/txs/{hash}], when lines 341-343 are reached. *)
Definition committed (st : State) (w : World)
  : option (Prevotes * TxQueryData) :=
  match prepare st w with
  | Returned pl =>
      if (length (msgs pl) =? 0)%nat then None
      else
        match sign w (stdTx pl) (signMeta pl), broadcast (broadcastReply w) with
        | Some _, Returned (Some d) =>
            if no_code (bc_code d) then
              match waitTx (txPolls w) with
              | Returned (Some q) =>
                  if no_code (tx_code q) then Some (prevotes pl, q) else None
              | _ => None
              end
            else None
        | _, _ => None
        end
  | Thrown _ => None
  end.

(** The broadcast step fails: the request is rejected, or the reply
    carries a nonzero code. *)
Definition broadcast_failed (w : World) : bool :=
  match broadcastReply w with
  | BroadcastAccepted d => negb (no_code (bc_code d))
  | _ => true
  end.

(** The confirmation step fails: no reply within [secTimeout] polls, a
    poll that throws, or a reply with a nonzero code. *)
Definition confirm_failed (w : World) : bool :=
  match waitTx (txPolls w) with
  | Returned (Some q) => negb (no_code (tx_code q))
  | _ => true
  end.

(** The [prevote_period] the specification attaches to each entry of the
    prevote memory: the period of inclusion of the confirmed transaction
    that wrote the entry last.  The code keeps no such field; it is
    reconstructed here next to the code's own variables. *)
Definition entry_periods_step (g : gmap string Z) (st : State) (w : World)
  : gmap string Z :=
  match committed st w with
  | Some (pv, q) =>
      ((fun _ => height q / oracleVotePeriod) <$> priceUpdateMap pv) ∪ g
  | None => g
  end.

Fixpoint entry_periods (g : gmap string Z) (st : State) (ws : list World)
  : gmap string Z :=
  match ws with
  | [] => g
  | w :: rest =>
      entry_periods (entry_periods_step g st w) (next (iteration st w)) rest
  end.

(** The earliest time at which the next iteration can start: when the
    sleep, if any, is over. *)
Definition next_start (st : State) (w : World) : Z :=
  sleepTime w + default 0 (delay (iteration st w)).

(** A vote message built from the memory entry of a sampled currency. *)
Definition vote_of (st : State) (m : Msg) : Prop :=
  ∃ c remembered valAddr,
    filtered_out c = false
    ∧ prevotePrices st !! c = Some remembered
    ∧ In valAddr valAddrs
    ∧ m = MsgExchangeRateVote remembered (prevoteSalts st !! c)
            ("u" +:+ toLowerCase c) (terraAddress voter) valAddr.

(** The prices that pass the denom filter. *)
Definition kept (ps : list Price) : list Price :=
  List.filter (fun p => negb (filtered_out (currency p))) ps.

(** The prevote messages of one kept price, committed with salt number [i]:
    one per validator. *)
Definition prevote_of (draw : nat → string) (i : nat) (p : Price) : list Msg :=
  let denom := "u" +:+ toLowerCase (currency p) in
  List.map (fun valAddr =>
              MsgExchangeRatePrevote
                (generateVoteHash (draw i) (price p) denom valAddr)
                denom (terraAddress voter) valAddr)
           valAddrs.

(** A world whose price sources quote ordinary currency codes: none that
    reads "all" once in lower case. *)
Definition ordinary (w : World) : bool :=
  forallb (fun reply =>
             match reply with
             | Some {| prices := Some ps |} =>
                 forallb (fun p => negb (String.eqb (toLowerCase (currency p))
                                                    "all")) ps
             | _ => true
             end)
          (settled w).

(** The denom a message is about. *)
Definition denom_of (m : Msg) : string :=
  match m with
  | MsgExchangeRateVote _ _ denom _ _ => denom
  | MsgExchangeRatePrevote _ denom _ _ => denom
  end.

(** The prevote messages of the transactions confirmed during the
    iterations of [ws], oldest first. *)
Fixpoint confirmed_prevotes (st : State) (ws : list World) : list Msg :=
  match ws with
  | [] => []
  | w :: rest =>
      match committed st w with
      | Some (pv, _) => prevoteMsgs pv
      | None => []
      end ++ confirmed_prevotes (next (iteration st w)) rest
  end.

(** The periods of inclusion of those transactions, oldest first. *)
Fixpoint confirmed_periods (st : State) (ws : list World) : list Z :=
  match ws with
  | [] => []
  | w :: rest =>
      match committed st w with
      | Some (_, q) => [height q / oracleVotePeriod]
      | None => []
      end ++ confirmed_periods (next (iteration st w)) rest
  end.

(** The chain as the loop can observe it: the sampled height is past the
    first vote period and not before the block of the last confirmed
    transaction, and a transaction is included at or after the height
    sampled before it was sent. *)
Definition chain_step (st : State) (w : World) : bool :=
  match latestBlock w with
  | Some h =>
      (oracleVotePeriod <=? h)
      && match prevotePeriod st with
         | Some p => p <=? h / oracleVotePeriod
         | None => true
         end
      && match committed st w with
         | Some (_, q) => h <=? height q
         | None => true
         end
  | None => true
  end.

Fixpoint chain (st : State) (ws : list World) : bool :=
  match ws with
  | [] => true
  | w :: rest => chain_step st w && chain (next (iteration st w)) rest
  end.

(** The variables with the last prevote period forgotten. *)
Definition forget_period (st : State) : State :=
  {| prevotePrices := prevotePrices st; prevoteSalts := prevoteSalts st;
     prevotePeriod := None |}.

(** The entries of the dictionaries [pm] (prices) and [sm] (salts) are
    backed by [log]: for every currency that has both, [log] holds the
    prevote messages that commit that price with that salt, one per
    validator. *)
Definition backed (log : list Msg) (pm sm : gmap string string) : Prop :=
  ∀ c x salt v,
    pm !! c = Some x → sm !! c = Some salt → In v valAddrs →
    In (MsgExchangeRatePrevote
          (generateVoteHash salt x ("u" +:+ toLowerCase c) v)
          ("u" +:+ toLowerCase c) (terraAddress voter) v)
       log.

(** * Properties *)

(** ** Strings *)

Lemma indexOf_range (l : list string) (x : string) :
  indexOf l x = -1 ∨ 0 ≤ indexOf l x.
Proof.
  induction l as [|y r IH]; simpl; [by left|].
  destruct (String.eqb y x); [right; lia|].
  destruct IH as [->| IH]; [by left|].
  right. destruct (Z.eqb_spec (indexOf r x) (-1)); lia.
Qed.

Lemma indexOf_absent (l : list string) (x : string) :
  indexOf l x = -1 ↔ ¬ In x l.
Proof.
  induction l as [|y r IH]; simpl; [tauto|].
  destruct (String.eqb_spec y x) as [->|Hne].
  - split; [lia | tauto].
  - destruct (Z.eqb_spec (indexOf r x) (-1)) as [E|E].
    + split; [|done]. intros _ [H|H]; [done|]. by apply IH.
    + pose proof (indexOf_range r x) as R. split; [lia|].
      intros N. exfalso. apply E, IH. tauto.
Qed.

(** ** Price aggregator *)

(** [some_1] yields the first request that fulfils, and only that one. *)
Lemma some_1_first (settled : list (option PriceData)) (d : PriceData) :
  some_1 settled = Returned [d] ↔
  ∃ n rest, settled = replicate n None ++ Some d :: rest.
Proof.
  induction settled as [|[e|] r IH]; simpl.
  - split; [done|]. intros (n & rest & H). by destruct n.
  - split.
    + intros [= ->]. by exists O, r.
    + intros (n & rest & H). destruct n; simpl in H; [|done]. congruence.
  - rewrite IH. split.
    + intros (n & rest & ->). by exists (S n), rest.
    + intros (n & rest & H). destruct n as [|n]; simplify_eq/=.
      by exists n, rest.
Qed.

Lemma some_1_singleton (settled : list (option PriceData)) (l : list PriceData) :
  some_1 settled = Returned l → ∃ d, l = [d].
Proof.
  induction settled as [|[e|] r IH]; simpl; [done| |done].
  intros [= <-]. by exists e.
Qed.

(** The reply behind the prices that [getPrices] returns. *)
Lemma getPrices_inv
  (now : Z) (settled : list (option PriceData)) (ps : list Price) :
  getPrices now settled = Returned ps →
  ∃ d, In (Some d) settled ∧ acceptable now d = true ∧ prices d = Some ps.
Proof.
  unfold getPrices.
  destruct (some_1 settled) as [l|e] eqn:E; simpl; [|done].
  destruct (some_1_singleton _ _ E) as [d ->].
  apply some_1_first in E as (n & rest & ->). simpl.
  destruct (acceptable now d) eqn:A; [|done].
  destruct (prices d) as [ps'|] eqn:P; [|done].
  intros [= ->]. exists d. split; [|done]. apply in_or_app. right. by left.
Qed.

(** C4, as the code has it: the aggregator looks at the first request that
    fulfils and at no other.  Whatever the sources that settle later
    answer, it returns the prices of that reply when the reply is
    acceptable and fails when it is not; it also fails when no request
    fulfils.  A reply is acceptable when its [created_at] is a string that
    is not a date or is at most 30 s before the current time, and its
    [prices] is an array.  In the voting loop, past the gate, any failure
    of the aggregator ends the iteration as a skipped tick: nothing is
    sent, the variables keep their values and the loop sleeps. *)
Theorem getPrices_first_reply_only
  (now : Z) (n : nat) (d : PriceData) (rest : list (option PriceData)) :
  let replies := replicate n None ++ Some d :: rest in
  (acceptable now d = true
   ↔ ∃ t ps, created_at d = CreatedString t ∧ prices d = Some ps
             ∧ ∀ ms, t = Some ms → now - ms ≤ 30 * 1000)
  ∧ getPrices now replies = getPrices now [Some d]
  ∧ (∀ ps, acceptable now d = true → prices d = Some ps →
           getPrices now replies = Returned ps)
  ∧ (acceptable now d = false →
     getPrices now replies = Thrown (Failure "could not fetch any price"))
  ∧ getPrices now (replicate n None) = Thrown (Failure "aggregate error")
  ∧ (∀ st w h e,
       latestBlock w = Some h →
       (Z.rem h oracleVotePeriod <? oracleVotePeriod - 3) = false →
       and_then (prevotePeriod st) (fun p => p =? h / oracleVotePeriod) = false →
       getPrices (priceTime w) (settled w) = Thrown e →
       iteration st w
       = {| next := st; ending := Skip; sent := None;
            delay := Some (pace w) |}).
Proof.
  intros replies.
  assert (some_1 replies = Returned [d]) as E.
  { apply some_1_first. by exists n, rest. }
  split; [|split; [|split; [|split; [|split]]]].
  - unfold acceptable.
    destruct (created_at d) as [|t]; [split; [done|by intros (t & ps & ? & _)]|].
    destruct (prices d) as [ps|]; [|split; [done|by intros (t' & ps & _ & ? & _)]].
    destruct t as [ms|]; simpl.
    + rewrite negb_true_iff, Z.ltb_ge. split.
      * intros H. exists (Some ms), ps. do 2 (split; [done|]).
        intros ms' [= <-]. lia.
      * intros (t & ps' & [= <-] & _ & H). specialize (H ms eq_refl). lia.
    + split; [|done]. intros _. exists None, ps. by repeat split.
  - unfold getPrices. by rewrite E.
  - intros ps A P. unfold getPrices. rewrite E. simpl. by rewrite A, P.
  - intros A. unfold getPrices. rewrite E. simpl. by rewrite A.
  - clear. unfold getPrices.
    induction n as [|n IH]; simpl; [done|]. apply IH.
  - intros st w h e B G1 G2 GP. unfold iteration, prepare.
    rewrite B. simpl. rewrite G1, G2, GP. done.
Qed.

(** C4, the claim refuted: a stale reply that arrives first makes the
    aggregator fail although the second source is fresh and well formed. *)
Lemma getPrices_stale_first :
  let stale := Sample.reply 100000 45000 [Sample.krw] in
  let fresh := Sample.reply 100000 1000 [Sample.krw] in
  acceptable 100000 fresh = true
  ∧ getPrices 100000 [Some fresh] = Returned [Sample.krw]
  ∧ getPrices 100000 [Some stale; Some fresh]
    = Thrown (Failure "could not fetch any price").
Proof. repeat split. Qed.

(** C5, as the code has it: the reply whose prices the aggregator returns
    has a string [created_at] that is not a date or is at most 30 s before
    the current time, and an array [prices], which may be empty. *)
Theorem getPrices_accepts
  (now : Z) (settled : list (option PriceData)) (ps : list Price) :
  getPrices now settled = Returned ps →
  ∃ d t, In (Some d) settled ∧ prices d = Some ps
         ∧ created_at d = CreatedString t
         ∧ ∀ ms, t = Some ms → now - ms ≤ 30 * 1000.
Proof.
  intros H. apply getPrices_inv in H as (d & Hd & A & P).
  unfold acceptable in A. rewrite P in A.
  destruct (created_at d) as [|t] eqn:C; [done|].
  exists d, t. do 3 (split; [done|]). intros ms ->.
  simpl in A. apply negb_true_iff, Z.ltb_ge in A. lia.
Qed.

Lemma getPrices_accepts_witness :
  ∃ d t, In (Some d) [Some (Sample.reply 100000 1000 [Sample.krw])]
         ∧ prices d = Some [Sample.krw]
         ∧ created_at d = CreatedString t
         ∧ ∀ ms, t = Some ms → 100000 - ms ≤ 30 * 1000.
Proof.
  apply (getPrices_accepts 100000
           [Some (Sample.reply 100000 1000 [Sample.krw])] [Sample.krw]).
  reflexivity.
Defined.

(** C5, the claim refuted: a fresh reply with an empty [prices] array is
    accepted, and the empty list is what the voting loop receives. *)
Lemma getPrices_empty_array :
  getPrices 100000 [Some (Sample.reply 100000 1000 [])] = Returned [].
Proof. reflexivity. Qed.

(** A [created_at] string that is not a date is accepted as well: its time
    is [NaN], and [NaN > 30000] is false. *)
Lemma getPrices_invalid_date :
  getPrices 100000
    [Some {| created_at := CreatedString None; prices := Some [Sample.krw] |}]
  = Returned [Sample.krw].
Proof. reflexivity. Qed.

(** ** Building the messages *)

(** What [prepare] went through when it returns a plan. *)
Lemma prepare_inv (st : State) (w : World) (pl : Plan) :
  prepare st w = Returned pl →
  ∃ h ps,
    latestBlock w = Some h
    ∧ votePeriod pl = h / oracleVotePeriod
    ∧ (Z.rem h oracleVotePeriod <? oracleVotePeriod - 3) = false
    ∧ and_then (prevotePeriod st) (fun p => p =? h / oracleVotePeriod) = false
    ∧ getPrices (priceTime w) (settled w) = Returned ps
    ∧ queryAccount (accountReply w) = Returned (account pl)
    ∧ prevotes pl = prevote_forEach (salts w) ps
    ∧ (if and_then (prevotePeriod st) (fun p => h / oracleVotePeriod - p =? 1)
       then vote_forEach st ps [] = Returned (voteMsgs pl)
       else voteMsgs pl = []).
Proof.
  unfold prepare. destruct (latestBlock w) as [h|]; simpl; [|done].
  destruct (Z.rem h oracleVotePeriod <? oracleVotePeriod - 3) eqn:G1;
    simpl; [done|].
  destruct (and_then (prevotePeriod st) _) eqn:G2; simpl; [done|].
  destruct (getPrices _ _) as [ps|e]; simpl; [|done].
  destruct (queryAccount _) as [acct|e]; simpl; [|done].
  destruct (and_then (prevotePeriod st) (fun p => h / oracleVotePeriod - p =? 1))
    eqn:G3; simpl.
  - destruct (vote_forEach st ps []) as [vs|e] eqn:V; simpl; [|done].
    intros [= <-]. exists h, ps. simpl. by rewrite G3.
  - intros [= <-]. exists h, ps. simpl. by rewrite G3.
Qed.

Lemma vote_forEach_inv (st : State) (ps : list Price) (acc l : list Msg) :
  vote_forEach st ps acc = Returned l →
  ∀ m, In m l → In m acc ∨ vote_of st m.
Proof.
  revert acc. induction ps as [|p rest IH]; intros acc; simpl.
  - intros [= <-] m Hm. by left.
  - destruct (filtered_out (currency p)) eqn:F; [apply IH|].
    destruct (prevotePrices st !! currency p) as [remembered|] eqn:L; [|done].
    intros H m Hm. destruct (IH _ H m Hm) as [Hin|Hv]; [|by right].
    apply in_app_or in Hin as [Hin|Hin]; [by left|right].
    apply in_map_iff in Hin as (valAddr & <- & Hval).
    by exists (currency p), remembered, valAddr.
Qed.

(** The second loop builds prevote messages only. *)
Lemma prevote_fold_no_vote (draw : nat → string) (ps : list Price) (acc : Prevotes) :
  (∀ m, In m (prevoteMsgs acc) → is_vote m = false) →
  ∀ m, In m (prevoteMsgs (fold_left (prevote_step draw) ps acc)) →
       is_vote m = false.
Proof.
  revert acc. induction ps as [|p rest IH]; intros acc Hacc; simpl; [done|].
  apply IH. unfold prevote_step.
  destruct (filtered_out (currency p)); [done|]. simpl.
  intros m [Hm|Hm]%in_app_or; [by apply Hacc|].
  by apply in_map_iff in Hm as (v & <- & _).
Qed.

(** The prevote messages, one per kept price and validator, in order; the
    [i]-th kept price is committed with the [i]-th salt drawn. *)
Lemma prevote_fold_msgs (draw : nat → string) (ps : list Price) (acc : Prevotes) :
  let r := fold_left (prevote_step draw) ps acc in
  prevoteMsgs r
  = prevoteMsgs acc
    ++ concat (imap (fun i p => prevote_of draw (drawn acc + i) p) (kept ps))
  ∧ drawn r = (drawn acc + length (kept ps))%nat.
Proof.
  revert acc. induction ps as [|p rest IH]; intros acc; simpl.
  - split; [by rewrite app_nil_r | lia].
  - destruct (IH (prevote_step draw acc p)) as [E1 E2].
    unfold kept in *. simpl. rewrite E1, E2. unfold prevote_step.
    destruct (filtered_out (currency p)); simpl; [done|].
    rewrite <- app_assoc, Nat.add_0_r. split; [|lia].
    do 3 f_equal. apply imap_ext. intros i x _. simpl. f_equal. lia.
Qed.

Lemma prevote_forEach_msgs (draw : nat → string) (ps : list Price) :
  prevoteMsgs (prevote_forEach draw ps)
  = concat (imap (prevote_of draw) (kept ps)).
Proof.
  unfold prevote_forEach.
  destruct (prevote_fold_msgs draw ps
              {| prevoteMsgs := []; priceUpdateMap := ∅;
                 priceUpdateSaltMap := ∅; drawn := O |}) as [E _].
  by rewrite E.
Qed.

Lemma concat_imap_length {A B} (f : nat → A → list B) (n : nat) (l : list A) :
  (∀ i x, length (f i x) = n) →
  length (concat (imap f l)) = (length l * n)%nat.
Proof.
  revert f. induction l as [|x l IH]; intros f Hf; simpl; [done|].
  rewrite length_app, Hf, IH; [done|]. intros i y. apply Hf.
Qed.

Lemma prevote_forEach_count (draw : nat → string) (ps : list Price) :
  length (prevoteMsgs (prevote_forEach draw ps))
  = (length (kept ps) * length valAddrs)%nat.
Proof.
  rewrite prevote_forEach_msgs. apply concat_imap_length.
  intros i p. unfold prevote_of. apply length_map.
Qed.

(** ** Chain client *)

(** [waitTx] gives up after [secTimeout] polls without a reply. *)
Lemma waitTx_from_timeout (polls : nat → TxPoll) (n t : nat) :
  (∀ i, (t ≤ i < t + n)%nat → polls i = TxNotFound) →
  waitTx_from polls t n = Returned None.
Proof.
  revert t. induction n as [|n IH]; intros t H; simpl; [done|].
  rewrite (H t) by lia. simpl. apply IH. intros i Hi. apply H. lia.
Qed.

Lemma waitTx_timeout (polls : nat → TxPoll) :
  (∀ i, (i < secTimeout)%nat → polls i = TxNotFound) →
  waitTx polls = Returned None.
Proof. intros H. apply waitTx_from_timeout. intros i Hi. apply H. lia. Qed.

(** A reply that [waitTx] returns is one of the first [secTimeout] polls. *)
Lemma waitTx_from_found (polls : nat → TxPoll) (n t : nat) (q : TxQueryData) :
  waitTx_from polls t n = Returned (Some q) →
  ∃ i, (t ≤ i < t + n)%nat ∧ polls i = TxFound q.
Proof.
  revert t. induction n as [|n IH]; intros t; simpl; [done|].
  destruct (polls t) as [d| |] eqn:E; simpl; [| |done].
  - intros [= ->]. exists t. split; [lia|done].
  - intros H. destruct (IH _ H) as (i & Hi & P). exists i. split; [lia|done].
Qed.

(** A poll never throws the sentinel ['skip']. *)
Lemma waitTx_from_no_skip (polls : nat → TxPoll) (n t : nat) :
  waitTx_from polls t n ≠ Thrown SkipSentinel.
Proof.
  revert t. induction n as [|n IH]; intros t; simpl; [done|].
  destruct (polls t); simpl; [done|apply IH|done].
Qed.

(** The variables change in one place only: at a confirmed transaction. *)
Lemma iteration_next (st : State) (w : World) :
  next (iteration st w)
  = match committed st w with
    | Some (pv, q) => remember st pv q
    | None => st
    end.
Proof.
  unfold iteration, committed, submit, confirm, finish.
  destruct (prepare st w) as [pl|[|m]]; simpl; [|done|done].
  destruct (length (msgs pl) =? 0)%nat; simpl; [done|].
  destruct (sign w _ _); simpl; [|done].
  destruct (broadcastReply w) as [d| | |]; simpl; try done.
  destruct (no_code (bc_code d)); simpl; [|done].
  destruct (waitTx (txPolls w)) as [[q|]|[|m]]; simpl; try done.
  by destruct (no_code (tx_code q)).
Qed.

Lemma finish_sent (st : State) (w : World) (s : option BroadcastReq)
  (r : Res State) :
  sent (finish st w s r) = s.
Proof. by destruct r as [st'|[|m]]. Qed.

(** What was sent is the transaction of the plan. *)
Lemma iteration_sent (st : State) (w : World) (req : BroadcastReq) :
  sent (iteration st w) = Some req →
  ∃ pl, prepare st w = Returned pl
        ∧ msgs pl ≠ []
        ∧ tx req = stdTx pl
        ∧ sign w (stdTx pl) (signMeta pl) = Some (signature req)
        ∧ mode req = "sync".
Proof.
  unfold iteration, submit, finish.
  destruct (prepare st w) as [pl|[|m]]; simpl; [|done|done].
  destruct (msgs pl) as [|m0 l] eqn:M; simpl; [done|].
  destruct (sign w _ _) as [sg|] eqn:S; simpl.
  - intros H. exists pl. rewrite M.
    assert (Some {| tx := stdTx pl; signature := sg; mode := "sync" |}
            = Some req) as [= <-]; [|done].
    rewrite <- H. by repeat case_match.
  - intros H. exfalso. revert H. by repeat case_match.
Qed.

(** C2: when the broadcast step fails (the request is rejected or the
    reply carries a nonzero code) or the confirmation step fails (nonzero
    code in the tx query result, or no result within the 45 polls), the
    price map, the salt map and the last prevote period after the
    iteration are those it started with. *)
Theorem memory_unchanged_on_failure (st : State) (w : World) :
  broadcast_failed w = true ∨ confirm_failed w = true →
  next (iteration st w) = st.
Proof.
  intros H. rewrite iteration_next. unfold committed.
  destruct (prepare st w) as [pl|e]; [|done].
  destruct (length (msgs pl) =? 0)%nat; [done|].
  destruct (sign w _ _); [|done].
  unfold broadcast_failed, confirm_failed in H.
  destruct (broadcastReply w) as [d| | |]; simpl in *; try done.
  destruct (no_code (bc_code d)); simpl in *; [|done].
  destruct (waitTx (txPolls w)) as [[q|]|e]; simpl; try done.
  destruct (no_code (tx_code q)); simpl in *; [|done].
  by destruct H.
Qed.

(** C3: when the broadcast transaction is confirmed with zero code, the
    last prevote period becomes the floor of the height of the confirmed
    transaction over the (positive) vote period, whatever height was
    sampled at the start of the iteration: sampled in period 30 and
    included in period 31, it becomes 31. *)
Theorem prevotePeriod_of_inclusion
  (st : State) (w : World) (req : BroadcastReq) (d : BroadcastData)
  (q : TxQueryData) :
  0 < oracleVotePeriod →
  sent (iteration st w) = Some req →
  broadcastReply w = BroadcastAccepted d → no_code (bc_code d) = true →
  waitTx (txPolls w) = Returned (Some q) → no_code (tx_code q) = true →
  prevotePeriod (next (iteration st w)) = Some (height q / oracleVotePeriod)
  ∧ (∀ h, latestBlock w = Some h → h / oracleVotePeriod = 30 →
          height q / oracleVotePeriod = 31 →
          prevotePeriod (next (iteration st w)) = Some 31).
Proof.
  intros _ Hsent Hb Hbc Hw Hqc.
  assert (prevotePeriod (next (iteration st w))
          = Some (height q / oracleVotePeriod)) as E.
  { apply iteration_sent in Hsent as (pl & P & M & _ & S & _).
    rewrite iteration_next. unfold committed.
    rewrite P, S, Hb. simpl. rewrite Hbc, Hw, Hqc.
    destruct (msgs pl); [done|]. done. }
  split; [done|]. intros h _ _ E31. by rewrite E, E31.
Qed.

(** ** The memory *)

(** The two dictionaries of an update have the same keys. *)
Lemma prevote_fold_domains (draw : nat → string) (ps : list Price)
  (acc : Prevotes) :
  dom (priceUpdateMap acc) = dom (priceUpdateSaltMap acc) →
  let r := fold_left (prevote_step draw) ps acc in
  dom (priceUpdateMap r) = dom (priceUpdateSaltMap r).
Proof.
  revert acc. induction ps as [|p rest IH]; intros acc H; simpl; [done|].
  apply IH. unfold prevote_step.
  destruct (filtered_out (currency p)); [done|]. simpl.
  by rewrite !dom_insert_L, H.
Qed.

(** Price and salt are remembered together: the two dictionaries of the
    memory keep the same keys through every iteration. *)
Lemma iteration_domains (st : State) (w : World) :
  dom (prevotePrices st) = dom (prevoteSalts st) →
  dom (prevotePrices (next (iteration st w)))
  = dom (prevoteSalts (next (iteration st w))).
Proof.
  intros H. rewrite iteration_next.
  destruct (committed st w) as [[pv q]|] eqn:C; [|done].
  unfold committed in C.
  destruct (prepare st w) as [pl|e] eqn:P; [|done].
  assert (pv = prevotes pl) as -> by (by repeat case_match; simplify_eq).
  apply prepare_inv in P as (h & ps & _ & _ & _ & _ & _ & _ & -> & _).
  simpl. rewrite !dom_union_L, H. f_equal.
  by apply (prevote_fold_domains (salts w) ps).
Qed.

Lemma final_domains (st : State) (ws : list World) :
  dom (prevotePrices st) = dom (prevoteSalts st) →
  dom (prevotePrices (final st ws)) = dom (prevoteSalts (final st ws)).
Proof.
  revert st. induction ws as [|w rest IH]; intros st H; simpl; [done|].
  apply IH. by apply iteration_domains.
Qed.

(** ** Pairing of reveals *)

(** The first loop throws at a kept currency that has no price entry. *)
Lemma vote_forEach_missing (st : State) (ps : list Price) (acc : list Msg)
  (p : Price) :
  In p ps → filtered_out (currency p) = false →
  prevotePrices st !! currency p = None →
  ∃ e, vote_forEach st ps acc = Thrown e.
Proof.
  revert acc. induction ps as [|p' rest IH]; intros acc Hin F L; [done|].
  simpl. destruct Hin as [->|Hin].
  - rewrite F, L. by eexists.
  - destruct (filtered_out (currency p')); [by apply IH|].
    destruct (prevotePrices st !! currency p'); [by apply IH | by eexists].
Qed.

(** C1, as the code has it: one period is remembered for the whole memory,
    not one per currency.  Every vote message that is sent was built while
    the last prevote period was set, nonzero and exactly one less than the
    current period, from the price and salt entries of a currency that
    passes the filter, and the price entry exists; when reveals are due and
    a sampled currency that passes the filter has no price entry, nothing
    is sent at all. *)
Theorem reveal_needs_previous_period (st : State) (w : World) :
  (∀ req m,
     sent (iteration st w) = Some req →
     In m (msg (tx req)) → is_vote m = true →
     (∃ p h, prevotePeriod st = Some p ∧ p ≠ 0
             ∧ latestBlock w = Some h ∧ h / oracleVotePeriod - p = 1)
     ∧ vote_of st m)
  ∧ (∀ h ps p,
       latestBlock w = Some h →
       and_then (prevotePeriod st) (fun q => h / oracleVotePeriod - q =? 1)
       = true →
       getPrices (priceTime w) (settled w) = Returned ps →
       In p ps → filtered_out (currency p) = false →
       prevotePrices st !! currency p = None →
       sent (iteration st w) = None).
Proof.
  split.
  - intros req m Hsent Hm Hv.
    apply iteration_sent in Hsent as (pl & P & _ & T & _). rewrite T in Hm.
    apply prepare_inv in P as (h & ps & B & _ & _ & _ & _ & _ & PV & V).
    simpl in Hm. unfold msgs in Hm. apply in_app_or in Hm as [Hm|Hm].
    + destruct (and_then _ _) eqn:G in V; [|by rewrite V in Hm].
      split.
      * unfold and_then in G. destruct (prevotePeriod st) as [p|]; [|done].
        apply andb_true_iff in G as [G1 G2]. exists p, h.
        apply negb_true_iff, Z.eqb_neq in G1. apply Z.eqb_eq in G2. done.
      * by destruct (vote_forEach_inv _ _ _ _ V m Hm).
    + rewrite PV in Hm. unfold prevote_forEach in Hm.
      apply prevote_fold_no_vote in Hm; [congruence|done].
  - intros h ps p B G GP Hin F L. unfold iteration.
    destruct (prepare st w) as [pl|e] eqn:P; [|apply finish_sent].
    exfalso.
    apply prepare_inv in P as (h' & ps' & B' & _ & _ & _ & GP' & _ & _ & V).
    rewrite B in B'. injection B' as <-. rewrite GP in GP'.
    injection GP' as <-. rewrite G in V.
    destruct (vote_forEach_missing st ps [] p Hin F L) as [e E]. congruence.
Qed.

(** ** Account query *)

(** C8, as the code has it: the account query fails when [account_number]
    or [sequence] is not a string (or the reply has no value at all), and
    succeeds on any two strings, decimal or not; the voting loop turns the
    failure into a skipped tick: nothing is sent, the variables keep their
    values, and the loop sleeps as after any other tick. *)
Theorem account_failure_skips (st : State) (w : World) :
  ((∃ a, queryAccount (accountReply w) = Returned a)
   ↔ ∃ n s, accountReply w = AccountValue (JString n) (JString s))
  ∧ (∀ h ps e,
       latestBlock w = Some h →
       (Z.rem h oracleVotePeriod <? oracleVotePeriod - 3) = false →
       and_then (prevotePeriod st) (fun p => p =? h / oracleVotePeriod) = false →
       getPrices (priceTime w) (settled w) = Returned ps →
       queryAccount (accountReply w) = Thrown e →
       iteration st w
       = {| next := st; ending := Skip; sent := None; delay := Some (pace w) |}).
Proof.
  split.
  - unfold queryAccount. destruct (accountReply w) as [| |n s]; simpl.
    + split; [by intros [a ?] | by intros (n & s & ?)].
    + split; [by intros [a ?] | by intros (n & s & ?)].
    + destruct n, s; simpl; split; try (by intros [a ?]);
        try (by intros (n & s' & ?)); eauto.
  - intros h ps e B G1 G2 GP QA. unfold iteration, prepare.
    rewrite B. simpl. rewrite G1, G2, GP. simpl. by rewrite QA.
Qed.

(** ** Pacing *)

(** C9, as the code has it: after an iteration that ends normally or with
    ['skip'] the loop sleeps [max(5000, 6000 - elapsed)] ms, at least 5 s,
    and so that the next iteration starts 6 s after this one when the
    iteration took at most 1 s; after an iteration that ends with any other
    exception it does not sleep at all. *)
Theorem pacing (st : State) (w : World) :
  (ending (iteration st w) = Normal ∨ ending (iteration st w) = Skip →
   delay (iteration st w) = Some (pace w)
   ∧ 5000 ≤ pace w
   ∧ next_start st w = sleepTime w + pace w
   ∧ (0 ≤ sleepTime w - startTime w →
      startTime w + 6000 ≤ next_start st w)
   ∧ (0 ≤ sleepTime w - startTime w ≤ 1000 →
      next_start st w = startTime w + 6000))
  ∧ (∀ m, ending (iteration st w) = Restart m →
          delay (iteration st w) = None ∧ next_start st w = sleepTime w).
Proof.
  unfold next_start, pace.
  assert (∀ sent r,
            let it := finish st w sent r in
            match ending it with
            | Restart _ => delay it = None
            | _ => delay it
                   = Some (Z.max 5000 (6000 - (sleepTime w - startTime w)))
            end) as F.
  { intros sent [st'|[|m]]; done. }
  assert (∃ sent r, iteration st w = finish st w sent r) as (sent & r & ->).
  { unfold iteration. destruct (prepare st w) as [pl|e]; [|by eauto].
    destruct (submit st w pl) as [sent r]. by eauto. }
  specialize (F sent r). simpl in F. split.
  - intros [E|E]; rewrite E in F; rewrite F; simpl; repeat split; lia.
  - intros m E. rewrite E in F. rewrite F. simpl. split; [done|lia].
Qed.


(** ** The denom filter *)

Lemma vote_forEach_all_filtered (st : State) (ps : list Price) (acc : list Msg) :
  (∀ p, In p ps → filtered_out (currency p) = true) →
  vote_forEach st ps acc = Returned acc.
Proof.
  induction ps as [|p rest IH]; intros H; simpl; [done|].
  rewrite (H p) by (by left). apply IH. intros q Hq. apply H. by right.
Qed.

Lemma prevote_fold_all_filtered (draw : nat → string) (ps : list Price)
  (acc : Prevotes) :
  (∀ p, In p ps → filtered_out (currency p) = true) →
  fold_left (prevote_step draw) ps acc = acc.
Proof.
  revert acc. induction ps as [|p rest IH]; intros acc H; simpl; [done|].
  unfold prevote_step at 2. rewrite (H p) by (by left).
  apply IH. intros q Hq. apply H. by right.
Qed.

(** With the filter ["all"] only a currency that reads "all" is kept. *)
Lemma filter_all_excludes (c : string) :
  denoms args = "all" → toLowerCase c ≠ "all" → filtered_out c = true.
Proof.
  intros D N. unfold filtered_out, denomArray. rewrite D.
  change (List.map toLowerCase (split "," "all")) with ["all"].
  unfold indexOf.
  destruct (String.eqb_spec "all" (toLowerCase c)); [congruence|reflexivity].
Qed.

(** A plan made from prices that are all filtered out has no message. *)
Lemma ordinary_spec (w : World) (d : PriceData) (ps : list Price) (p : Price) :
  ordinary w = true →
  In (Some d) (settled w) → prices d = Some ps → In p ps →
  toLowerCase (currency p) ≠ "all".
Proof.
  unfold ordinary. rewrite forallb_forall. intros O Hd Hps Hp.
  specialize (O _ Hd). destruct d as [c pr]. simpl in Hps. subst pr.
  rewrite forallb_forall in O. specialize (O _ Hp).
  apply negb_true_iff in O. by apply String.eqb_neq in O.
Qed.

Lemma prepare_all_filtered (st : State) (w : World) (pl : Plan) :
  denoms args = "all" → ordinary w = true →
  prepare st w = Returned pl → msgs pl = [].
Proof.
  intros D O P.
  apply prepare_inv in P as (h & ps & _ & _ & _ & _ & GP & _ & PV & V).
  assert (∀ p, In p ps → filtered_out (currency p) = true) as F.
  { intros p Hp. apply filter_all_excludes; [done|].
    apply getPrices_inv in GP as (d & Hd & _ & Hps).
    by apply (ordinary_spec w d ps p). }
  unfold msgs. rewrite PV. unfold prevote_forEach.
  rewrite prevote_fold_all_filtered by done. simpl.
  destruct (and_then _ _); [|by rewrite V].
  rewrite vote_forEach_all_filtered in V by done. by injection V as <-.
Qed.

(** C6, as the code has it: with the default [--denoms all] the filter is
    the list ["all"]; when no currency the sources quote reads "all" once
    in lower case, every currency is filtered out: no plan holds a vote or
    prevote message, no iteration sends a transaction, and the variables
    never change. *)
Theorem default_filter_never_votes (st : State) (ws : list World) :
  denoms args = "all" →
  forallb ordinary ws = true →
  denomArray = ["all"]
  ∧ (∀ w st' pl, In w ws → prepare st' w = Returned pl → msgs pl = [])
  ∧ Forall (fun it => sent it = None ∧ next it = st) (vote st ws).
Proof.
  intros D O. split; [unfold denomArray; rewrite D; reflexivity|]. split.
  - intros w st' pl Hw. apply prepare_all_filtered; [done|].
    rewrite forallb_forall in O. by apply O.
  - induction ws as [|w rest IH]; simpl; [constructor|].
    simpl in O. apply andb_true_iff in O as [Ow O].
    assert (sent (iteration st w) = None ∧ next (iteration st w) = st) as [S N].
    { unfold iteration.
      destruct (prepare st w) as [pl|[|m]] eqn:P; simpl; [|done|done].
      unfold submit. rewrite (prepare_all_filtered st w pl D Ow P). done. }
    constructor; [done|]. rewrite N. by apply IH.
Qed.

(** ** The phase gate *)

(** C7, as the code has it: with a vote period of 5 and an empty memory
    the gate skips a tick exactly when the index of its height in the
    period is below 5 - 3 = 2.  A tick at height 96 (index 1) is skipped,
    as is every tick of index 0 or 1; a tick of index 2, 3 or 4, such as
    those at heights 97 (index 2) and 98 (index 3), builds, once prices and
    account are fetched, no vote message and one prevote message per kept
    price and validator, and sends them in one transaction when there is
    at least one and signing succeeds. *)
Theorem phase_gate_period_5 (w : World) (h : Z) :
  oracleVotePeriod = 5 →
  latestBlock w = Some h →
  (Z.rem 96 5 = 1 ∧ Z.rem 97 5 = 2 ∧ Z.rem 98 5 = 3)
  ∧ (Z.rem h 5 < 2 →
     iteration initial w
     = {| next := initial; ending := Skip; sent := None;
          delay := Some (pace w) |})
  ∧ (2 ≤ Z.rem h 5 →
     ∀ ps a,
       getPrices (priceTime w) (settled w) = Returned ps →
       queryAccount (accountReply w) = Returned a →
       ∃ pl, prepare initial w = Returned pl
             ∧ voteMsgs pl = []
             ∧ msgs pl = concat (imap (prevote_of (salts w)) (kept ps))
             ∧ length (msgs pl) = (length (kept ps) * length valAddrs)%nat
             ∧ (∀ sg, msgs pl ≠ [] →
                      sign w (stdTx pl) (signMeta pl) = Some sg →
                      sent (iteration initial w)
                      = Some {| tx := stdTx pl; signature := sg;
                                mode := "sync" |}
                      ∧ ending (iteration initial w) ≠ Skip)).
Proof.
  intros E B. split; [done|]. split.
  - intros Hlow. unfold iteration, prepare. rewrite B, E. simpl.
    by destruct (Z.ltb_spec (Z.rem h 5) (5 - 3)) as [|]; [|lia].
  - intros Hhigh ps a GP QA.
    assert (prepare initial w
            = Returned {| votePeriod := h / oracleVotePeriod; account := a;
                          voteMsgs := [];
                          prevotes := prevote_forEach (salts w) ps |}) as P.
    { unfold prepare. rewrite B. simpl.
      assert ((Z.rem h oracleVotePeriod <? oracleVotePeriod - 3) = false) as ->
          by (rewrite E; apply Z.ltb_ge; lia).
      simpl. rewrite GP, QA. done. }
    eexists. split; [exact P|]. split; [done|].
    unfold msgs at 1 2. simpl. rewrite prevote_forEach_msgs. split; [done|].
    split.
    { rewrite <- prevote_forEach_msgs. apply prevote_forEach_count. }
    intros sg Hne S. unfold iteration. rewrite P. unfold submit.
    rewrite S. destruct (msgs _) eqn:M; [done|]. simpl.
    split; [apply finish_sent|].
    unfold confirm.
    destruct (broadcastReply w) as [d| | |]; simpl; try done.
    destruct (no_code (bc_code d)); simpl; [|done].
    pose proof (waitTx_from_no_skip (txPolls w) secTimeout 0) as NS.
    unfold waitTx.
    destruct (waitTx_from (txPolls w) 0 secTimeout) as [[q|]|[|m']]; simpl;
      try done.
    by destruct (no_code (tx_code q)).
Qed.

(** ** Gas and fee *)

Lemma round53_small (p : Z) : Z.log2 p - 52 ≤ 0 → Float64.round53 p = p.
Proof.
  intros H. unfold Float64.round53.
  destruct (Z.leb_spec (Z.log2 p - 52) 0); [done|lia].
Qed.

(** The integer model agrees with the primitive floats on the gas of the
    first 2000 message counts and of 2000 counts spread up to 2^32. *)
Lemma times_0_015_matches_binary64 :
  forallb (fun z => bool_decide
                      (Float64.primitive_times_0_015 (50000 + z * 7500)
                       = Some (Float64.times_0_015 (50000 + z * 7500))))
          (List.map Z.of_nat (seq 1 2000)
           ++ List.map (fun i => Z.of_nat i * 2147483) (seq 1 2000))
  = true.
Proof. vm_compute. reflexivity. Qed.

(** The rounded value is within half a unit in the last place, and does
    not pass a representable number. *)
Lemma round53_nearest (p : Z) :
  let s := Z.log2 p - 52 in
  0 < s →
  p - 2 ^ (s - 1) ≤ Float64.round53 p
  ∧ ∀ k, p ≤ k * 2 ^ s → Float64.round53 p ≤ k * 2 ^ s.
Proof.
  intros s Hs. unfold Float64.round53. fold s.
  destruct (Z.leb_spec s 0) as [|_]; [lia|].
  rewrite Z.shiftr_div_pow2, Z.shiftl_mul_pow2 by lia.
  assert (2 ^ s = 2 * 2 ^ (s - 1)) as E.
  { rewrite <- Z.pow_succ_r by lia. f_equal. lia. }
  assert (0 < 2 ^ (s - 1)) as Hh by (apply Z.pow_pos_nonneg; lia).
  pose proof (Z.div_mod p (2 ^ s) ltac:(lia)) as D.
  pose proof (Z.mod_pos_bound p (2 ^ s) ltac:(lia)) as R.
  set (q := p / 2 ^ s) in *. set (r := p mod 2 ^ s) in *.
  set (half := 2 ^ (s - 1)) in *. set (u := 2 ^ s) in *.
  destruct ((half <? r) || (r =? half) && Z.odd q) eqn:C.
  - split; [nia|]. intros k Hk.
    assert (0 < r).
    { apply orb_true_iff in C as [C|C]; [apply Z.ltb_lt in C; lia|].
      apply andb_true_iff in C as [C _]. apply Z.eqb_eq in C. lia. }
    assert (q < k) by (apply Z.mul_lt_mono_pos_l with u; lia).
    apply Z.mul_le_mono_nonneg_r; lia.
  - apply orb_false_iff in C as [C _]. apply Z.ltb_ge in C.
    split; [nia|]. intros k Hk. nia.
Qed.

(** The fee is the ceiling of [gas * 15 / 1000] for every array length
    JavaScript allows. *)
Lemma fee_of_ceiling (n : nat) :
  1 ≤ Z.of_nat n < 2 ^ 32 →
  15 * gas_of n ≤ 1000 * fee_of n < 15 * gas_of n + 1000.
Proof.
  intros Hz. unfold fee_of, Float64.times_0_015, Float64.ceil.
  unfold gas_of, Float64.significand_0_015, Float64.scale.
  change (2 ^ 32) with 4294967296 in Hz.
  set (z := Z.of_nat n) in *.
  set (p := (50000 + z * 7500) * 1080863910568919).
  assert (p = (1500 + 225 * z) * 2 ^ 55 - (2000 + 300 * z)) as Ep.
  { unfold p. change (2 ^ 55) with 36028797018963968. lia. }
  assert (2 ^ 65 ≤ p < 2 ^ 103) as Hp.
  { change (2 ^ 65) with 36893488147419103232.
    change (2 ^ 103) with 10141204801825835211973625643008. unfold p. lia. }
  assert (65 ≤ Z.log2 p < 103) as Hl.
  { split; [apply Z.log2_le_pow2; lia | apply Z.log2_lt_pow2; lia]. }
  destruct (round53_nearest p ltac:(lia)) as [Lo Up].
  set (s := Z.log2 p - 52) in *.
  pose proof (Z.div_mod (1500 + 225 * z + 1) 2 ltac:(lia)) as Dc.
  pose proof (Z.mod_pos_bound (1500 + 225 * z + 1) 2 ltac:(lia)) as Rc.
  set (c := (1500 + 225 * z + 1) / 2) in *.
  set (rc := (1500 + 225 * z + 1) mod 2) in *. clearbody c rc.
  assert (2 ^ (s - 1) ≤ 2 ^ 49) as Hhalf by (apply Z.pow_le_mono_r; lia).
  change (2 ^ 55) with 36028797018963968 in Ep.
  change (2 ^ 49) with 562949953421312 in Hhalf.
  assert (Float64.round53 p ≤ c * 2 ^ 56) as Hup.
  { replace (c * 2 ^ 56) with ((c * 2 ^ (56 - s)) * 2 ^ s).
    - apply Up. rewrite <- Z.mul_assoc, <- Z.pow_add_r by lia.
      replace (56 - s + s) with 56 by lia.
      change (2 ^ 56) with 72057594037927936. lia.
    - rewrite <- Z.mul_assoc, <- Z.pow_add_r by lia. do 2 f_equal. lia. }
  change (2 ^ 56) with 72057594037927936 in *.
  assert ((c - 1) * 72057594037927936 < Float64.round53 p) as Hlo by lia.
  assert (- Float64.round53 p / 72057594037927936 = - c) as ->.
  { symmetry.
    apply Z.div_unique with (r := c * 72057594037927936 - Float64.round53 p);
      [left|]; lia. }
  lia.
Qed.

(** C10: a transaction that is sent carries [n >= 1] messages; its gas
    limit is [50000 + 7500 * n] and its fee is one coin of denom [ukrw]
    whose amount is the ceiling of [gas * 0.015], the least integer [f] with
    [gas * 15 <= 1000 * f]. *)
Theorem transaction_fee (st : State) (w : World) (req : BroadcastReq) :
  sent (iteration st w) = Some req →
  Z.of_nat (length (msg (tx req))) < 2 ^ 32 →
  let n := Z.of_nat (length (msg (tx req))) in
  1 ≤ n
  ∧ gas (fee (tx req)) = pretty (50000 + 7500 * n)
  ∧ ∃ f, fee_amount (fee (tx req))
         = [{| amount := pretty f; coin_denom := "ukrw" |}]
         ∧ 15 * (50000 + 7500 * n) ≤ 1000 * f
           < 15 * (50000 + 7500 * n) + 1000.
Proof.
  intros Hsent Hlen n.
  apply iteration_sent in Hsent as (pl & _ & Hne & T & _).
  unfold n in *. rewrite T in *. simpl in *.
  assert (1 ≤ length (msgs pl))%nat as H1.
  { destruct (msgs pl); [done|simpl; lia]. }
  split; [lia|]. split; [unfold gas_of; f_equal; lia|].
  exists (fee_of (length (msgs pl))). split; [done|].
  pose proof (fee_of_ceiling (length (msgs pl)) ltac:(lia)) as F.
  unfold gas_of in F. lia.
Qed.

(** * Further properties of the code *)

(** ** Splitting and joining *)

Lemma split_free (sep : ascii) (w : string) :
  free_of sep w = true → split sep w = [w].
Proof.
  induction w as [|a w IH]; simpl; [done|].
  intros [Ha Hw]%andb_true_iff. apply negb_true_iff in Ha.
  by rewrite Ha, (IH Hw).
Qed.

Lemma split_app (sep : ascii) (w r : string) :
  free_of sep w = true →
  split sep (w +:+ String sep r) = w :: split sep r.
Proof.
  induction w as [|a w IH]; simpl.
  - intros _. by rewrite Ascii.eqb_refl.
  - intros [Ha Hw]%andb_true_iff. apply negb_true_iff in Ha.
    by rewrite Ha, (IH Hw).
Qed.

(** Splitting what was joined gives the pieces back, when no piece holds
    the separator. *)
Lemma split_join (sep : ascii) (l : list string) :
  l ≠ [] → forallb (free_of sep) l = true → split sep (join sep l) = l.
Proof.
  induction l as [|x r IH]; [done|]. intros _ [Hx Hr]%andb_true_iff.
  destruct r as [|y r]; [by apply split_free|].
  change (join sep (x :: y :: r)) with (x +:+ String sep (join sep (y :: r))).
  rewrite split_app by done. f_equal. by apply IH.
Qed.

(** ** Key update *)

Lemma same_units_eq (a b : list N) : same_units a b = true ↔ a = b.
Proof.
  revert b. induction a as [|u a IH]; intros [|v b]; simpl; try done.
  rewrite andb_true_iff, N.eqb_eq, IH. split; [by intros [-> ->]|].
  by intros [= <- <-].
Qed.

Lemma split_units_free (sep : N) (w : list N) :
  free_of_unit sep w = true → split_units sep w = [w].
Proof.
  induction w as [|u w IH]; simpl; [done|].
  intros [Hu Hw]%andb_true_iff. apply negb_true_iff in Hu.
  by rewrite Hu, (IH Hw).
Qed.

Lemma split_units_app (sep : N) (w r : list N) :
  free_of_unit sep w = true →
  split_units sep (w ++ sep :: r) = w :: split_units sep r.
Proof.
  induction w as [|u w IH]; simpl.
  - intros _. by rewrite N.eqb_refl.
  - intros [Hu Hw]%andb_true_iff. apply negb_true_iff in Hu.
    by rewrite Hu, (IH Hw).
Qed.

Lemma split_join_units (sep : N) (l : list (list N)) :
  l ≠ [] → forallb (free_of_unit sep) l = true →
  split_units sep (join_units sep l) = l.
Proof.
  induction l as [|x r IH]; [done|]. intros _ [Hx Hr]%andb_true_iff.
  destruct r as [|y r]; [by apply split_units_free|].
  change (join_units sep (x :: y :: r))
    with (x ++ sep :: join_units sep (y :: r)).
  rewrite split_units_app by done. f_equal. by apply IH.
Qed.

(** X1: [updateKey] refuses a passphrase of fewer than 8 code units,
    whatever else is entered, and then a passphrase that was not repeated
    exactly; it imports a key only after both tests, and hands the
    mnemonic over as it was entered, untrimmed.  Past the two tests it
    counts the pieces between single spaces of the trimmed mnemonic, empty
    pieces included: the key is imported exactly when there are 24 pieces,
    so that 23 words with one doubled space pass and 24 words with one
    doubled space do not. *)
Theorem updateKey_counts_pieces (ks pw : list N) :
  ((length pw < 8)%nat →
   ∀ cf mn, updateKey ks pw cf mn
            = KeyRefused "ERROR: password must be at least 8 characters")
  ∧ ((8 ≤ length pw)%nat →
     ∀ cf mn, cf ≠ pw →
              updateKey ks pw cf mn
              = KeyRefused
                  "ERROR: passphrases don't matchPassword confirm failed")
  ∧ ((8 ≤ length pw)%nat →
     ∀ mn pieces,
       pieces ≠ [] → forallb (free_of_unit 32) pieces = true →
       trim mn = join_units 32 pieces →
       (updateKey ks pw pw mn = KeyImported ks pw mn
        ↔ length pieces = 24%nat)
       ∧ (length pieces ≠ 24%nat →
          updateKey ks pw pw mn = KeyRefused "Error: Mnemonic is not valid."))
  ∧ (∀ cf mn k p m, updateKey ks pw cf mn = KeyImported k p m →
                    (8 ≤ length pw)%nat
                    ∧ cf = pw ∧ k = ks ∧ p = pw ∧ m = mn).
Proof using Type.
  clear generateVoteHash args voter oracleVotePeriod.
  assert (same_units pw pw = true) as Refl by (by apply same_units_eq).
  unfold updateKey. split; [|split; [|split]].
  - intros Hpw cf mn.
    by destruct (Nat.ltb_spec (length pw) 8) as [|]; [|lia].
  - intros Hpw cf mn Hne.
    destruct (Nat.ltb_spec (length pw) 8) as [|_]; [lia|].
    destruct (same_units pw cf) eqn:E; [|done].
    apply same_units_eq in E. congruence.
  - intros Hpw mn pieces Hne Hfree Htrim.
    destruct (Nat.ltb_spec (length pw) 8) as [|_]; [lia|].
    rewrite Refl, Htrim, split_join_units by done. simpl.
    destruct (Nat.eqb_spec (length pieces) 24); simpl; [done|].
    split; [|done]. split; [done|tauto].
  - intros cf mn k p m.
    destruct (Nat.ltb_spec (length pw) 8) as [|Hpw]; [done|].
    destruct (same_units pw cf) eqn:E; simpl; [|done].
    apply same_units_eq in E as <-.
    destruct (length (split_units 32 (trim mn)) =? 24)%nat; simpl; [|done].
    by intros [= <- <- <-].
Qed.

(** ** The denom filter, again *)

(** X2: when [--denoms] lists codes separated by commas, a currency passes
    the filter exactly when it equals one of the listed codes up to the
    case of its letters.  The codes are taken as they stand between the
    commas: nothing is trimmed. *)
Theorem denoms_filter (codes : list string) (c : string) :
  codes ≠ [] → forallb (free_of ",") codes = true →
  denoms args = join "," codes →
  denomArray = List.map toLowerCase codes
  ∧ (filtered_out c = false
     ↔ ∃ code, In code codes ∧ toLowerCase code = toLowerCase c).
Proof.
  intros Hne Hfree D.
  assert (denomArray = List.map toLowerCase codes) as E.
  { unfold denomArray. by rewrite D, split_join. }
  split; [done|]. unfold filtered_out. rewrite E.
  pose proof (indexOf_absent (List.map toLowerCase codes) (toLowerCase c)) as A.
  rewrite in_map_iff in A.
  destruct (Z.eqb_spec (indexOf (List.map toLowerCase codes) (toLowerCase c))
              (-1)) as [I|I].
  - split; [done|]. intros (code & Hin & Hc). exfalso.
    apply A in I. apply I. by exists code.
  - split; [|done]. intros _.
    destruct (In_dec string_dec (toLowerCase c) (List.map toLowerCase codes))
      as [Hin|Hout].
    + apply in_map_iff in Hin as (code & Hc & Hin). by exists code.
    + exfalso. apply I, A. by rewrite <- in_map_iff.
Qed.

(** ** Waiting for the transaction *)

Lemma waitTx_from_first (polls : nat → TxPoll) (n t i : nat) (q : TxQueryData) :
  (t ≤ i < t + n)%nat → polls i = TxFound q →
  (∀ j, (t ≤ j < i)%nat → polls j = TxNotFound) →
  waitTx_from polls t n = Returned (Some q).
Proof.
  revert t. induction n as [|n IH]; intros t Hi F N; [lia|]. simpl.
  destruct (decide (i = t)) as [->|Hne]; [by rewrite F|].
  rewrite (N t) by lia. simpl. apply IH; [lia|done|].
  intros j Hj. apply N. lia.
Qed.

Lemma waitTx_from_throws (polls : nat → TxPoll) (n t i : nat) :
  (t ≤ i < t + n)%nat → polls i = TxNoResponse →
  (∀ j, (t ≤ j < i)%nat → polls j = TxNotFound) →
  ∃ e, waitTx_from polls t n = Thrown e.
Proof.
  revert t. induction n as [|n IH]; intros t Hi F N; [lia|]. simpl.
  destruct (decide (i = t)) as [->|Hne]; [rewrite F; by eexists|].
  rewrite (N t) by lia. simpl. apply IH; [lia|done|].
  intros j Hj. apply N. lia.
Qed.

(** What [waitTx_from] saw: polls without a reply up to the one that
    decided. *)
Lemma waitTx_from_seen (polls : nat → TxPoll) (n t : nat) :
  match waitTx_from polls t n with
  | Returned (Some q) =>
      ∃ i, (t ≤ i < t + n)%nat ∧ polls i = TxFound q
           ∧ ∀ j, (t ≤ j < i)%nat → polls j = TxNotFound
  | Returned None => ∀ i, (t ≤ i < t + n)%nat → polls i = TxNotFound
  | Thrown _ =>
      ∃ i, (t ≤ i < t + n)%nat ∧ polls i = TxNoResponse
           ∧ ∀ j, (t ≤ j < i)%nat → polls j = TxNotFound
  end.
Proof.
  revert t. induction n as [|n IH]; intros t; simpl; [intros i; lia|].
  destruct (polls t) as [d| |] eqn:E; simpl.
  - exists t. split; [lia|]. split; [done|]. intros j; lia.
  - specialize (IH (S t)).
    destruct (waitTx_from polls (S t) n) as [[q|]|e].
    + destruct IH as (i & Hi & F & N). exists i. split; [lia|].
      split; [done|]. intros j Hj.
      destruct (decide (j = t)) as [->|]; [done|]. apply N. lia.
    + intros i Hi. destruct (decide (i = t)) as [->|]; [done|]. apply IH. lia.
    + destruct IH as (i & Hi & F & N). exists i. split; [lia|].
      split; [done|]. intros j Hj.
      destruct (decide (j = t)) as [->|]; [done|]. apply N. lia.
  - exists t. split; [lia|]. split; [done|]. intros j; lia.
Qed.

(** X3: [waitTx] returns the first reply among the first 45 polls, provided
    every poll before it was answered by an HTTP error (404 or other); it
    returns nothing exactly when all 45 polls were so answered; and it
    throws exactly when a poll fails without an HTTP response before any
    reply was found. *)
Theorem waitTx_first_reply (polls : nat → TxPoll) :
  (∀ q, waitTx polls = Returned (Some q)
        ↔ ∃ i, (i < secTimeout)%nat ∧ polls i = TxFound q
               ∧ ∀ j, (j < i)%nat → polls j = TxNotFound)
  ∧ (waitTx polls = Returned None
     ↔ ∀ i, (i < secTimeout)%nat → polls i = TxNotFound)
  ∧ ((∃ e, waitTx polls = Thrown e)
     ↔ ∃ i, (i < secTimeout)%nat ∧ polls i = TxNoResponse
            ∧ ∀ j, (j < i)%nat → polls j = TxNotFound).
Proof.
  pose proof (waitTx_from_seen polls secTimeout 0) as S.
  unfold waitTx. split; [|split].
  - intros q. split.
    + intros E. rewrite E in S. destruct S as (i & Hi & F & N).
      exists i. split; [lia|]. split; [done|]. intros j Hj. apply N. lia.
    + intros (i & Hi & F & N). apply (waitTx_from_first polls _ 0 i); [lia|done|].
      intros j Hj. apply N. lia.
  - split.
    + intros E. rewrite E in S. intros i Hi. apply S. lia.
    + intros N. apply waitTx_from_timeout. intros i Hi. apply N. lia.
  - split.
    + intros [e E]. rewrite E in S. destruct S as (i & Hi & F & N).
      exists i. split; [lia|]. split; [done|]. intros j Hj. apply N. lia.
    + intros (i & Hi & F & N). apply (waitTx_from_throws polls _ 0 i); [lia|done|].
      intros j Hj. apply N. lia.
Qed.

(** ** Confirmed transactions *)

(** What an iteration went through when its transaction is confirmed. *)
Lemma committed_inv (st : State) (w : World) (pv : Prevotes) (q : TxQueryData) :
  committed st w = Some (pv, q) →
  ∃ pl sg d,
    prepare st w = Returned pl ∧ msgs pl ≠ [] ∧ pv = prevotes pl
    ∧ sign w (stdTx pl) (signMeta pl) = Some sg
    ∧ broadcastReply w = BroadcastAccepted d ∧ no_code (bc_code d) = true
    ∧ waitTx (txPolls w) = Returned (Some q) ∧ no_code (tx_code q) = true.
Proof.
  unfold committed. destruct (prepare st w) as [pl|e]; [|done].
  destruct (msgs pl) as [|m0 l] eqn:M; [done|]. simpl.
  destruct (sign w _ _) as [sg|] eqn:S; [|done].
  destruct (broadcastReply w) as [d| | |]; simpl; try done.
  destruct (no_code (bc_code d)) eqn:Bc; [|done].
  destruct (waitTx (txPolls w)) as [[q'|]|e]; try done.
  destruct (no_code (tx_code q')) eqn:Tc; [|done].
  intros [= <- <-]. exists pl, sg, d. rewrite M. by repeat split.
Qed.

(** The last prevote period grows at every confirmed transaction, and is
    below every period confirmed later. *)
Lemma confirmed_periods_above (ws : list World) (st : State) :
  0 < oracleVotePeriod → chain st ws = true →
  0 ≤ default 0 (prevotePeriod st) →
  Forall (fun p => default 0 (prevotePeriod st) < p) (confirmed_periods st ws)
  ∧ StronglySorted Z.lt (confirmed_periods st ws).
Proof.
  intros Hvp. revert st. induction ws as [|w rest IH]; intros st C L; simpl.
  { split; constructor. }
  simpl in C. apply andb_true_iff in C as [Cw C]. unfold chain_step in Cw.
  rewrite iteration_next in *.
  destruct (committed st w) as [[pv q]|] eqn:Cm; simpl; [|by apply IH].
  apply committed_inv in Cm as (pl & _ & _ & P & _).
  apply prepare_inv in P as (h & ps & B & _ & _ & G & _).
  rewrite B in Cw. apply andb_true_iff in Cw as [Cw H2].
  apply andb_true_iff in Cw as [H1 H3].
  apply Z.leb_le in H1, H2.
  assert (1 ≤ h / oracleVotePeriod) as Hone
      by (apply Z.div_le_lower_bound; lia).
  assert (h / oracleVotePeriod ≤ height q / oracleVotePeriod) as Hmono
      by (apply Z.div_le_mono; lia).
  assert (default 0 (prevotePeriod st) < height q / oracleVotePeriod) as Hlt.
  { destruct (prevotePeriod st) as [p|]; simpl in *; [|lia].
    apply Z.leb_le in H3. unfold and_then in G.
    destruct (Z.eqb_spec p 0) as [E|Hp]; [lia|].
    simpl in G. apply Z.eqb_neq in G. lia. }
  destruct (IH (remember st pv q) C) as [F S]; [simpl; lia|]. simpl in F.
  split.
  - constructor; [done|]. eapply Forall_impl; [exact F|]. simpl. lia.
  - by constructor.
Qed.

(** X6: on a chain whose heights the loop sees grow (a sampled height is
    past the first vote period and not before the last confirmed
    transaction, and a transaction is included at or after the height
    sampled before it), the periods of inclusion of the confirmed
    transactions are strictly increasing: no period receives two confirmed
    transactions. *)
Theorem confirmed_periods_increase (ws : list World) :
  0 < oracleVotePeriod → chain initial ws = true →
  StronglySorted Z.lt (confirmed_periods initial ws).
Proof.
  intros Hvp C. by apply (confirmed_periods_above ws initial).
Qed.

(** ** How an iteration ends *)

(** X9: once a request has been posted, how the iteration ends is decided
    by the replies alone.  When the broadcast fails without an HTTP
    response, or when the broadcast is accepted with no code and a
    transaction poll fails without an HTTP response before any reply is
    found, the iteration ends in an exception: the variables are unchanged
    and the loop starts over without sleeping.  In every other case it ends
    normally and sleeps.  It never ends in ['skip']. *)
Theorem ending_after_send (st : State) (w : World) (req : BroadcastReq) :
  sent (iteration st w) = Some req →
  let lost :=
    broadcastReply w = BroadcastNoResponse
    ∨ ∃ d i, broadcastReply w = BroadcastAccepted d
             ∧ no_code (bc_code d) = true
             ∧ (i < secTimeout)%nat ∧ txPolls w i = TxNoResponse
             ∧ ∀ j, (j < i)%nat → txPolls w j = TxNotFound in
  (lost → ∃ m, ending (iteration st w) = Restart m
               ∧ delay (iteration st w) = None
               ∧ next (iteration st w) = st)
  ∧ (¬ lost → ending (iteration st w) = Normal
              ∧ delay (iteration st w) = Some (pace w)).
Proof.
  unfold iteration, submit.
  destruct (prepare st w) as [pl|[|m]]; simpl; [|done|done].
  destruct (length (msgs pl) =? 0)%nat; simpl; [done|].
  destruct (sign w _ _) as [sg|]; simpl; [|done]. intros _.
  pose proof (waitTx_from_seen (txPolls w) secTimeout 0) as Seen.
  pose proof (waitTx_from_no_skip (txPolls w) secTimeout 0) as NoSkip.
  split.
  - intros [B|(d & i & B & Bc & Hi & F & N)]; rewrite B; simpl.
    + by eexists.
    + rewrite Bc. unfold waitTx.
      destruct (waitTx_from_throws (txPolls w) secTimeout 0 i) as [e E];
        [lia|done|intros j Hj; apply N; lia|].
      rewrite E in *. destruct e as [|m]; [done|]. simpl. by eexists.
  - intros NL. destruct (broadcastReply w) as [d| | |] eqn:B; simpl; try done.
    + destruct (no_code (bc_code d)) eqn:Bc; simpl; [|done].
      unfold waitTx.
      destruct (waitTx_from (txPolls w) 0 secTimeout) as [[q|]|[|m]]; simpl;
        try done.
      * by destruct (no_code (tx_code q)).
      * exfalso. apply NL. right. destruct Seen as (i & Hi & F & N).
        exists d, i. repeat split; try done; [lia|].
        intros j Hj. apply N. lia.
    + exfalso. apply NL. by left.
Qed.

(** ** A prevote confirmed in period 0 *)

Lemma and_then_zero (test : Z → bool) : and_then (Some 0) test = false.
Proof. done. Qed.

(** X10: while the last prevote period is 0 it counts as no prevote at
    all: the iteration plans, sends, ends and sleeps as if no period had
    been remembered, and what it sends holds no vote message; so the tick
    of period 1 does not reveal the prevotes included in period 0. *)
Theorem zero_period_is_no_period (st : State) (w : World) :
  prevotePeriod st = Some 0 →
  prepare st w = prepare (forget_period st) w
  ∧ sent (iteration st w) = sent (iteration (forget_period st) w)
  ∧ ending (iteration st w) = ending (iteration (forget_period st) w)
  ∧ delay (iteration st w) = delay (iteration (forget_period st) w)
  ∧ ∀ req m, sent (iteration st w) = Some req → In m (msg (tx req)) →
             is_vote m = false.
Proof.
  intros H0.
  assert (prepare st w = prepare (forget_period st) w) as P.
  { unfold prepare. simpl. by rewrite H0. }
  assert (∀ pl, prepare st w = Returned pl → voteMsgs pl = []) as V.
  { intros pl Hp.
    apply prepare_inv in Hp as (h & ps & _ & _ & _ & _ & _ & _ & _ & V).
    by rewrite H0 in V. }
  split; [done|]. unfold iteration. rewrite <- P.
  destruct (prepare st w) as [pl|[|m]] eqn:Hp; simpl; [|done|done].
  specialize (V pl eq_refl). unfold submit, confirm.
  destruct (length (msgs pl) =? 0)%nat eqn:Len; simpl; [done|].
  destruct (sign w _ _) as [sg|]; simpl; [|done].
  rewrite !finish_sent. split; [done|].
  assert (∀ A (f : Iteration → A),
            (∀ s s' e r r' d, f {| next := s; ending := e; sent := r;
                                    delay := d |}
                              = f {| next := s'; ending := e; sent := r';
                                     delay := d |}) →
            f (finish st w (Some {| tx := stdTx pl; signature := sg;
                                    mode := "sync" |})
                 (data ← broadcast (broadcastReply w);
                  confirm st w (prevotes pl) data))
            = f (finish (forget_period st) w
                   (Some {| tx := stdTx pl; signature := sg; mode := "sync" |})
                   (data ← broadcast (broadcastReply w);
                    confirm (forget_period st) w (prevotes pl) data))) as Same.
  { intros A f Hf. unfold confirm.
    destruct (broadcastReply w) as [d| | |]; simpl; try apply Hf.
    destruct (no_code (bc_code d)); simpl; [|apply Hf].
    destruct (waitTx (txPolls w)) as [[q|]|[|m]]; simpl; try apply Hf.
    destruct (no_code (tx_code q)); apply Hf. }
  split; [|split].
  - by apply (Same _ ending).
  - by apply (Same _ delay).
  - intros req m [= <-]. simpl. unfold msgs. rewrite V. simpl. intros Hm.
    apply prepare_inv in Hp as (h & ps & _ & _ & _ & _ & _ & _ & PV & _).
    rewrite PV in Hm. by apply prevote_fold_no_vote in Hm.
Qed.

(** ** Commitment and reveal *)

Lemma backed_more (log log' : list Msg) (pm sm : gmap string string) :
  backed log pm sm → (∀ m, In m log → In m log') → backed log' pm sm.
Proof. intros B H c x salt v Hx Hs Hv. by apply H, B. Qed.

(** The update of an iteration is backed by its own prevote messages. *)
Lemma prevote_fold_backed (draw : nat → string) (ps : list Price)
  (acc : Prevotes) :
  backed (prevoteMsgs acc) (priceUpdateMap acc) (priceUpdateSaltMap acc) →
  let r := fold_left (prevote_step draw) ps acc in
  backed (prevoteMsgs r) (priceUpdateMap r) (priceUpdateSaltMap r).
Proof.
  revert acc. induction ps as [|p rest IH]; intros acc B; simpl; [done|].
  apply IH. unfold prevote_step.
  destruct (filtered_out (currency p)); [done|]. simpl.
  intros c x salt v Hx Hs Hv. apply in_or_app.
  destruct (decide (currency p = c)) as [<-|Hne].
  - rewrite lookup_insert_eq in Hx, Hs. injection Hx as <-.
    injection Hs as <-. right. apply in_map_iff. by exists v.
  - rewrite lookup_insert_ne in Hx, Hs by done. left. by apply B.
Qed.

(** Union of two backed memories whose dictionaries go together. *)
Lemma backed_union (l1 l2 : list Msg) (pm1 sm1 pm2 sm2 : gmap string string) :
  dom pm1 = dom sm1 →
  backed l1 pm1 sm1 → backed l2 pm2 sm2 →
  backed (l2 ++ l1) (pm1 ∪ pm2) (sm1 ∪ sm2).
Proof.
  intros D B1 B2 c x salt v Hx Hs Hv. apply in_or_app.
  destruct (pm1 !! c) as [x1|] eqn:E1.
  - assert (is_Some (sm1 !! c)) as [s1 E2].
    { apply elem_of_dom. rewrite <- D. apply elem_of_dom. by eexists. }
    rewrite (lookup_union_Some_l _ _ _ _ E1) in Hx.
    rewrite (lookup_union_Some_l _ _ _ _ E2) in Hs.
    injection Hx as <-. injection Hs as <-. right. by apply B1.
  - assert (sm1 !! c = None) as E2.
    { apply not_elem_of_dom. rewrite <- D. by apply not_elem_of_dom. }
    rewrite lookup_union_r in Hx, Hs by done. left. by apply B2.
Qed.

(** The memory is backed by the prevotes confirmed so far. *)
Lemma memory_backed (ws : list World) (st : State) (log : list Msg) :
  dom (prevotePrices st) = dom (prevoteSalts st) →
  backed log (prevotePrices st) (prevoteSalts st) →
  backed (log ++ confirmed_prevotes st ws)
         (prevotePrices (final st ws)) (prevoteSalts (final st ws)).
Proof.
  revert st log. induction ws as [|w rest IH]; intros st log D B; simpl.
  { by rewrite app_nil_r. }
  rewrite app_assoc. apply IH; [by apply iteration_domains|].
  rewrite iteration_next.
  destruct (committed st w) as [[pv q]|] eqn:C; [|by rewrite app_nil_r].
  apply committed_inv in C as (pl & _ & _ & P & _ & -> & _).
  apply prepare_inv in P as (h & ps & _ & _ & _ & _ & _ & _ & -> & _).
  simpl. apply backed_union; [|by apply prevote_fold_backed|done].
  by apply (prevote_fold_domains (salts w) ps).
Qed.

(** X4: whatever the loop went through since it started, every vote
    message it sends reveals a price and a salt whose commitment, for the
    same denom and validator, is a prevote message of a transaction that
    was confirmed earlier. *)
Theorem reveal_was_committed
  (ws : list World) (w : World) (req : BroadcastReq) (m : Msg) :
  sent (iteration (final initial ws) w) = Some req →
  In m (msg (tx req)) → is_vote m = true →
  ∃ x salt d v,
    m = MsgExchangeRateVote x (Some salt) d (terraAddress voter) v
    ∧ In (MsgExchangeRatePrevote (generateVoteHash salt x d v) d
            (terraAddress voter) v)
         (confirmed_prevotes initial ws).
Proof.
  intros Hsent Hm Hv.
  apply iteration_sent in Hsent as (pl & P & _ & T & _). rewrite T in Hm.
  apply prepare_inv in P as (h & ps & _ & _ & _ & _ & _ & _ & PV & V).
  simpl in Hm. unfold msgs in Hm. apply in_app_or in Hm as [Hm|Hm].
  - destruct (and_then _ _) in V; [|by rewrite V in Hm].
    destruct (vote_forEach_inv _ _ _ _ V m Hm) as [[]|(c & x & v & _ & X & Hin & ->)].
    pose proof (final_domains initial ws eq_refl) as D.
    assert (is_Some (prevoteSalts (final initial ws) !! c)) as [salt S].
    { apply elem_of_dom. rewrite <- D. apply elem_of_dom. by eexists. }
    exists x, salt, ("u" +:+ toLowerCase c), v. rewrite S. split; [done|].
    by apply (memory_backed ws initial [] eq_refl).
  - rewrite PV in Hm. unfold prevote_forEach in Hm.
    apply prevote_fold_no_vote in Hm; [congruence|done].
Qed.

(** ** What a transaction holds *)

Lemma kept_in_filter (c : string) :
  filtered_out c = false → In (toLowerCase c) denomArray.
Proof.
  unfold filtered_out. intros F. apply Z.eqb_neq in F.
  destruct (In_dec string_dec (toLowerCase c) denomArray) as [Hin|Hout];
    [done|]. by apply indexOf_absent in Hout.
Qed.

(** The messages of the first loop: votes, one per validator for each kept
    price. *)
Lemma vote_forEach_built (st : State) (ps : list Price) (acc l : list Msg) :
  vote_forEach st ps acc = Returned l →
  ∃ new, l = acc ++ new
         ∧ length new = (length (kept ps) * length valAddrs)%nat
         ∧ ∀ m, In m new →
                is_vote m = true
                ∧ ∃ p, In p ps ∧ filtered_out (currency p) = false
                       ∧ denom_of m = "u" +:+ toLowerCase (currency p).
Proof.
  revert acc. induction ps as [|p rest IH]; intros acc; simpl.
  - intros [= <-]. exists []. by rewrite app_nil_r.
  - unfold kept. simpl. destruct (filtered_out (currency p)) eqn:F; simpl.
    + intros H. destruct (IH _ H) as (new & -> & L & N). exists new.
      do 2 (split; [done|]). intros m Hm.
      destruct (N m Hm) as (V & q & Hq & Fq & Dq). split; [done|].
      exists q. split; [by right|done].
    + destruct (prevotePrices st !! currency p) as [x|]; [|done].
      intros H. destruct (IH _ H) as (new & -> & L & N).
      eexists. rewrite <- app_assoc. split; [done|]. split.
      * rewrite length_app, length_map. unfold kept in L. lia.
      * intros m [Hm|Hm]%in_app_or.
        -- apply in_map_iff in Hm as (v & <- & _). split; [done|].
           exists p. split; [by left|done].
        -- destruct (N m Hm) as (V & q & Hq & Fq & Dq). split; [done|].
           exists q. split; [by right|done].
Qed.

(** The messages of the second loop come from kept prices of the sample. *)
Lemma prevote_fold_sampled (draw : nat → string) (ps : list Price)
  (acc : Prevotes) (m : Msg) :
  In m (prevoteMsgs (fold_left (prevote_step draw) ps acc)) →
  In m (prevoteMsgs acc)
  ∨ ∃ p, In p ps ∧ filtered_out (currency p) = false
         ∧ denom_of m = "u" +:+ toLowerCase (currency p).
Proof.
  revert acc. induction ps as [|p rest IH]; intros acc; simpl; [by left|].
  intros Hm. destruct (IH _ Hm) as [Hin|(q & Hq & Fq & Dq)].
  - unfold prevote_step in Hin.
    destruct (filtered_out (currency p)) eqn:F; [by left|]. simpl in Hin.
    apply in_app_or in Hin as [Hin|Hin]; [by left|right].
    apply in_map_iff in Hin as (v & <- & _). exists p. split; [by left|done].
  - right. exists q. split; [by right|done].
Qed.

(** X5: every message of a transaction that is sent, vote or prevote, is
    about the denom ["u" + currency.toLowerCase()] of a price of the
    current sample whose lower-cased currency is an element of the filter
    list. *)
Theorem sent_denoms_pass_filter
  (st : State) (w : World) (req : BroadcastReq) (m : Msg) :
  sent (iteration st w) = Some req → In m (msg (tx req)) →
  ∃ ps p, getPrices (priceTime w) (settled w) = Returned ps
          ∧ In p ps
          ∧ In (toLowerCase (currency p)) denomArray
          ∧ denom_of m = "u" +:+ toLowerCase (currency p).
Proof.
  intros Hsent Hm.
  apply iteration_sent in Hsent as (pl & P & _ & T & _). rewrite T in Hm.
  apply prepare_inv in P as (h & ps & _ & _ & _ & _ & GP & _ & PV & V).
  exists ps. simpl in Hm. unfold msgs in Hm.
  assert (∃ p, In p ps ∧ filtered_out (currency p) = false
               ∧ denom_of m = "u" +:+ toLowerCase (currency p))
    as (p & Hp & F & D).
  { apply in_app_or in Hm as [Hm|Hm].
    - destruct (and_then _ _) in V; [|by rewrite V in Hm].
      apply vote_forEach_built in V as (new & E & _ & N).
      rewrite E in Hm. by destruct (N m Hm).
    - rewrite PV in Hm. unfold prevote_forEach in Hm.
      by apply prevote_fold_sampled in Hm as [[]|?]. }
  exists p. repeat split; try done. by apply kept_in_filter.
Qed.

(** X8: a transaction that is sent holds the vote messages first and the
    prevote messages after them; there is one prevote message per kept
    price of the sample and validator, and as many vote messages when the
    last prevote period is the period before the sampled one, none
    otherwise. *)
Theorem transaction_shape (st : State) (w : World) (req : BroadcastReq) :
  sent (iteration st w) = Some req →
  ∃ h ps votes prevotes,
    latestBlock w = Some h
    ∧ getPrices (priceTime w) (settled w) = Returned ps
    ∧ msg (tx req) = votes ++ prevotes
    ∧ forallb is_vote votes = true
    ∧ forallb (fun m => negb (is_vote m)) prevotes = true
    ∧ length prevotes = (length (kept ps) * length valAddrs)%nat
    ∧ length votes
      = if and_then (prevotePeriod st)
             (fun p => h / oracleVotePeriod - p =? 1)
        then (length (kept ps) * length valAddrs)%nat else O.
Proof.
  intros Hsent.
  apply iteration_sent in Hsent as (pl & P & _ & T & _).
  apply prepare_inv in P as (h & ps & B & _ & _ & _ & GP & _ & PV & V).
  exists h, ps, (voteMsgs pl), (prevoteMsgs (prevotes pl)).
  do 2 (split; [done|]). split; [by rewrite T|].
  assert (forallb (fun m => negb (is_vote m)) (prevoteMsgs (prevotes pl)) = true
          ∧ length (prevoteMsgs (prevotes pl))
            = (length (kept ps) * length valAddrs)%nat) as [NV LP].
  { rewrite PV. split; [|apply prevote_forEach_count].
    apply forallb_forall. intros m Hm. unfold prevote_forEach in Hm.
    by apply prevote_fold_no_vote in Hm as ->. }
  destruct (and_then _ _).
  - apply vote_forEach_built in V as (new & E & L & N). rewrite E. simpl.
    split; [|done]. apply forallb_forall. intros m Hm. by apply N.
  - by rewrite V.
Qed.

(** ** What a confirmation remembers *)

(** A currency that no kept price of the list quotes keeps its entries. *)
Lemma prevote_fold_miss (draw : nat → string) (ps : list Price)
  (acc : Prevotes) (c : string) :
  (∀ p, In p ps → filtered_out (currency p) = false → currency p ≠ c) →
  let r := fold_left (prevote_step draw) ps acc in
  priceUpdateMap r !! c = priceUpdateMap acc !! c
  ∧ priceUpdateSaltMap r !! c = priceUpdateSaltMap acc !! c.
Proof.
  revert acc. induction ps as [|p rest IH]; intros acc H; simpl; [done|].
  destruct (IH (prevote_step draw acc p)) as [E1 E2].
  { intros q Hq. apply H. by right. }
  rewrite E1, E2. unfold prevote_step.
  destruct (filtered_out (currency p)) eqn:F; [done|]. simpl.
  rewrite !lookup_insert_ne; [done| |]; apply H; by (left || idtac).
Qed.

(** The last kept price of a currency is the one the update holds, with
    the salt drawn for it. *)
Lemma prevote_fold_hit (draw : nat → string) (l1 l2 : list Price) (p : Price)
  (acc : Prevotes) :
  filtered_out (currency p) = false →
  (∀ p', In p' l2 → filtered_out (currency p') = false →
         currency p' ≠ currency p) →
  let r := fold_left (prevote_step draw) (l1 ++ p :: l2) acc in
  priceUpdateMap r !! currency p = Some (price p)
  ∧ priceUpdateSaltMap r !! currency p
    = Some (draw (drawn acc + length (kept l1))%nat).
Proof.
  intros F H. simpl. rewrite fold_left_app. simpl.
  destruct (prevote_fold_miss draw l2
              (prevote_step draw (fold_left (prevote_step draw) l1 acc) p)
              (currency p) H) as [E1 E2].
  rewrite E1, E2.
  destruct (prevote_fold_msgs draw l1 acc) as [_ D]. simpl in D.
  set (acc1 := fold_left (prevote_step draw) l1 acc) in *.
  unfold prevote_step. rewrite F. simpl.
  by rewrite !lookup_insert_eq, D.
Qed.

(** X7: a confirmed transaction overwrites the price and the salt of every
    currency that a kept price of the sample quotes, with the last such
    price and the salt drawn for it, and leaves the entries of all other
    currencies as they were. *)
Theorem memory_after_confirmation
  (st : State) (w : World) (pv : Prevotes) (q : TxQueryData) :
  committed st w = Some (pv, q) →
  ∃ ps,
    getPrices (priceTime w) (settled w) = Returned ps
    ∧ (∀ c, (∀ p, In p ps → filtered_out (currency p) = false →
                  currency p ≠ c) →
            prevotePrices (next (iteration st w)) !! c = prevotePrices st !! c
            ∧ prevoteSalts (next (iteration st w)) !! c = prevoteSalts st !! c)
    ∧ (∀ l1 p l2,
         ps = l1 ++ p :: l2 → filtered_out (currency p) = false →
         (∀ p', In p' l2 → filtered_out (currency p') = false →
                currency p' ≠ currency p) →
         prevotePrices (next (iteration st w)) !! currency p = Some (price p)
         ∧ prevoteSalts (next (iteration st w)) !! currency p
           = Some (salts w (length (kept l1)))).
Proof.
  intros C. rewrite iteration_next, C.
  apply committed_inv in C as (pl & _ & _ & P & _ & -> & _).
  apply prepare_inv in P as (h & ps & _ & _ & _ & _ & GP & _ & -> & _).
  exists ps. split; [done|]. simpl. unfold prevote_forEach. split.
  - intros c H.
    destruct (prevote_fold_miss (salts w) ps
                {| prevoteMsgs := []; priceUpdateMap := ∅;
                   priceUpdateSaltMap := ∅; drawn := O |} c H) as [E1 E2].
    simpl in E1, E2. rewrite lookup_empty in E1, E2.
    by rewrite !lookup_union_r.
  - intros l1 p l2 -> F H.
    destruct (prevote_fold_hit (salts w) l1 l2 p
                {| prevoteMsgs := []; priceUpdateMap := ∅;
                   priceUpdateSaltMap := ∅; drawn := O |} F H) as [E1 E2].
    simpl in E1, E2.
    by rewrite (lookup_union_Some_l _ _ _ _ E1), (lookup_union_Some_l _ _ _ _ E2).
Qed.

End Feeder.

(** * Scenarios *)

(** C1, the claim refuted.  Period 19 prevotes krw and usd; in period 20
    the source quotes krw only, so the usd entry stays as it was; in period
    21 the source quotes both again and a vote for usd is sent with the
    price and salt of period 19, two periods old, because the last prevote
    period of the whole memory is 20. *)
Lemma reveal_of_older_prevote :
  let cfg := Sample.args "krw,usd" in
  let ws := [Sample.world 98 [Sample.krw; Sample.usd] 99;
             Sample.world 103 [Sample.krw] 104] in
  let w := Sample.world 108 [Sample.krw; Sample.usd'] 109 in
  let st := final Sample.hash cfg Sample.voter 5 initial ws in
  let memory := entry_periods Sample.hash cfg Sample.voter 5 ∅ initial ws in
  latestBlock w = Some 108 ∧ 108 / 5 = 21
  ∧ memory !! "usd" = Some 19
  ∧ prevotePeriod st = Some 20
  ∧ ∃ req, sent (iteration Sample.hash cfg Sample.voter 5 st w) = Some req
           ∧ In (MsgExchangeRateVote "1.10" (Some "1") "uusd"
                   "terra1feeder" "terravaloper1")
                (msg (tx req)).
Proof.
  repeat split; try by vm_compute.
  eexists. split; [vm_compute; reflexivity|]. simpl. tauto.
Qed.

Lemma reveal_needs_previous_period_witness :
  let cfg := Sample.args "krw,usd" in
  let st := next (iteration Sample.hash cfg Sample.voter 5 initial
                    (Sample.world 98 [Sample.krw; Sample.usd] 99)) in
  let w := Sample.world 103 [Sample.krw; Sample.usd] 104 in
  let m := MsgExchangeRateVote "1180.5" (Some "0") "ukrw"
             "terra1feeder" "terravaloper1" in
  (∃ p h, prevotePeriod st = Some p ∧ p ≠ 0
          ∧ latestBlock w = Some h ∧ h / 5 - p = 1)
  ∧ vote_of cfg Sample.voter st m.
Proof.
  intros cfg st w m.
  eapply (proj1 (reveal_needs_previous_period Sample.hash cfg Sample.voter 5
                   st w) _ m).
  - vm_compute. reflexivity.
  - simpl. tauto.
  - reflexivity.
Defined.

(** One source is down, the next answers with a reply that is 45 s old,
    the third is fresh: the aggregator fails and the tick is skipped. *)
Lemma getPrices_first_reply_only_witness :
  let cfg := Sample.args "krw,usd" in
  let stale := Sample.reply 500 45000 [Sample.krw] in
  let fresh := Sample.reply 500 1000 [Sample.krw] in
  let w := Sample.with_settled [None; Some stale; Some fresh]
             (Sample.world 98 [Sample.krw] 99) in
  getPrices (priceTime w) (settled w)
  = Thrown (Failure "could not fetch any price")
  ∧ iteration Sample.hash cfg Sample.voter 5 initial w
    = {| next := initial; ending := Skip; sent := None;
         delay := Some (pace w) |}.
Proof.
  intros cfg stale fresh w.
  pose proof (getPrices_first_reply_only Sample.hash cfg Sample.voter 5
                500 1 stale [Some fresh]) as (_ & _ & _ & Fail & _ & Skips).
  split; [exact (Fail eq_refl)|].
  exact (Skips initial w 98 _ eq_refl eq_refl eq_refl (Fail eq_refl)).
Defined.

Lemma memory_unchanged_on_failure_witness :
  let cfg := Sample.args "krw,usd" in
  let st := next (iteration Sample.hash cfg Sample.voter 5 initial
                    (Sample.world 98 [Sample.krw; Sample.usd] 99)) in
  let w := Sample.with_broadcast
             (BroadcastAccepted {| bc_code := Some 4; txhash := "AB12" |})
             (Sample.world 103 [Sample.krw; Sample.usd] 104) in
  next (iteration Sample.hash cfg Sample.voter 5 st w) = st.
Proof.
  intros cfg st w.
  apply (memory_unchanged_on_failure Sample.hash cfg Sample.voter 5 st w).
  left. reflexivity.
Defined.

Lemma prevotePeriod_of_inclusion_witness :
  let cfg := Sample.args "krw,usd" in
  let w := Sample.world 154 [Sample.krw] 155 in
  154 / 5 = 30
  ∧ prevotePeriod (next (iteration Sample.hash cfg Sample.voter 5 initial w))
    = Some 31.
Proof.
  intros cfg w. split; [reflexivity|].
  unshelve eapply
    (proj2 (prevotePeriod_of_inclusion Sample.hash cfg Sample.voter 5
              initial w _ {| bc_code := None; txhash := "AB12" |}
              {| tx_code := None; height := 155 |} _ _ _ _ _ _) 154);
    try reflexivity.
Defined.

(** C6, the claim refuted: the currency [ALL] is not literally ["all"],
    yet it passes the filter of [--denoms all], which compares lower-cased
    codes; a prevote for [uall] is sent. *)
Lemma upper_case_all_is_kept :
  let cfg := Sample.args "all" in
  let quote := {| currency := "ALL"; price := "1" |} in
  let it := iteration Sample.hash cfg Sample.voter 5 initial
              (Sample.world 98 [quote] 99) in
  currency quote ≠ "all"
  ∧ denomArray cfg = ["all"]
  ∧ (msg ∘ tx) <$> sent it
    = Some [MsgExchangeRatePrevote "0:1:uall:terravaloper1" "uall"
              "terra1feeder" "terravaloper1"].
Proof. repeat split. discriminate. Qed.

Lemma default_filter_never_votes_witness :
  let cfg := Sample.args "all" in
  let ws := [Sample.world 98 [Sample.krw; Sample.usd] 99;
             Sample.world 103 [Sample.krw; Sample.usd] 104] in
  denomArray cfg = ["all"]
  ∧ (∀ w st' pl, In w ws →
       prepare Sample.hash cfg Sample.voter 5 st' w = Returned pl →
       msgs pl = [])
  ∧ Forall (fun it => sent it = None ∧ next it = initial)
           (vote Sample.hash cfg Sample.voter 5 initial ws).
Proof.
  intros cfg ws.
  apply (default_filter_never_votes Sample.hash cfg Sample.voter 5 initial ws);
    reflexivity.
Defined.

(** C7, the claim refuted: with a vote period of 5 and an empty memory the
    tick at height 97 (index 2, not less than 5 - 3) is not skipped; it
    sends the two prevotes. *)
Lemma tick_at_97_acts :
  let it := iteration Sample.hash (Sample.args "krw,usd") Sample.voter 5
              initial (Sample.world 97 [Sample.krw; Sample.usd] 98) in
  Z.rem 97 5 = 2
  ∧ ending it = Normal
  ∧ (msg ∘ tx) <$> sent it
    = Some [MsgExchangeRatePrevote "0:1180.5:ukrw:terravaloper1" "ukrw"
              "terra1feeder" "terravaloper1";
            MsgExchangeRatePrevote "1:1.10:uusd:terravaloper1" "uusd"
              "terra1feeder" "terravaloper1"].
Proof. repeat split. Qed.

Lemma phase_gate_period_5_witness :
  let cfg := Sample.args "krw,usd" in
  let w := Sample.world 99 [Sample.krw; Sample.usd] 99 in
  Z.rem 99 5 = 4
  ∧ ∃ pl, prepare Sample.hash cfg Sample.voter 5 initial w = Returned pl
          ∧ voteMsgs pl = []
          ∧ length (msgs pl) = 2%nat.
Proof.
  intros cfg w. split; [reflexivity|].
  destruct (proj2 (proj2 (phase_gate_period_5 Sample.hash cfg Sample.voter 5
                            w 99 eq_refl eq_refl))
              ltac:(by vm_compute) [Sample.krw; Sample.usd]
              {| account_number := JString "7"; sequence := JString "12" |}
              eq_refl eq_refl)
    as (pl & P & V & _ & L & _).
  exists pl. repeat split; [exact P | exact V | exact L].
Defined.

(** C8, the claim refuted: a reply without [account_number] makes the tick
    skip, and the loop goes on to the next tick, which prevotes; a reply
    whose fields are strings but no decimal integers is accepted and the
    transaction is sent. *)
Lemma account_failure_not_fatal :
  let cfg := Sample.args "krw,usd" in
  let good := Sample.world 98 [Sample.krw] 99 in
  let missing := Sample.with_account (AccountValue JUndefined (JString "12")) good in
  let odd := Sample.with_account (AccountValue (JString "seven") (JString "0x0c")) good in
  let run := vote Sample.hash cfg Sample.voter 5 initial [missing; good] in
  ending <$> run = [Skip; Normal]
  ∧ (fun it => bool_decide (is_Some (sent it))) <$> run = [false; true]
  ∧ queryAccount (accountReply odd)
    = Returned {| account_number := JString "seven"; sequence := JString "0x0c" |}
  ∧ is_Some (sent (iteration Sample.hash cfg Sample.voter 5 initial odd)).
Proof. repeat split; try by vm_compute. by eexists. Qed.

Lemma account_failure_skips_witness :
  let cfg := Sample.args "krw,usd" in
  let w := Sample.with_account (AccountValue JUndefined (JString "12"))
             (Sample.world 98 [Sample.krw] 99) in
  iteration Sample.hash cfg Sample.voter 5 initial w
  = {| next := initial; ending := Skip; sent := None; delay := Some (pace w) |}.
Proof.
  intros cfg w.
  apply (proj2 (account_failure_skips Sample.hash cfg Sample.voter 5 initial w)
           98 [Sample.krw]
           (Failure "Failed to fetch account number and sequence"));
    reflexivity.
Defined.

(** C9, the claim refuted: when the latest block query throws, the loop
    does not sleep; the next iteration can start 2 ms after this one. *)
Lemma restart_without_sleep :
  let cfg := Sample.args "krw,usd" in
  let w := Sample.unreachable in
  let it := iteration Sample.hash cfg Sample.voter 5 initial w in
  ending it = Restart "latest block query failed"
  ∧ delay it = None
  ∧ next_start Sample.hash cfg Sample.voter 5 initial w - startTime w = 2.
Proof. repeat split. Qed.

Lemma pacing_witness :
  let cfg := Sample.args "krw,usd" in
  let w := Sample.world 98 [Sample.krw] 99 in
  delay (iteration Sample.hash cfg Sample.voter 5 initial w) = Some 5000
  ∧ next_start Sample.hash cfg Sample.voter 5 initial w = 8000.
Proof.
  intros cfg w.
  destruct (proj1 (pacing Sample.hash cfg Sample.voter 5 initial w)
              (or_introl eq_refl)) as (D & _ & N & _).
  split; [exact D | exact N].
Defined.

Lemma transaction_fee_witness :
  let cfg := Sample.args "krw,usd" in
  let w := Sample.world 98 [Sample.krw; Sample.usd] 99 in
  ∃ req, sent (iteration Sample.hash cfg Sample.voter 5 initial w) = Some req
         ∧ gas (fee (tx req)) = "65000"
         ∧ ∃ f, fee_amount (fee (tx req))
                = [{| amount := pretty f; coin_denom := "ukrw" |}]
                ∧ 15 * 65000 ≤ 1000 * f < 15 * 65000 + 1000.
Proof.
  intros cfg w. eexists. split; [vm_compute; reflexivity|].
  eapply (transaction_fee Sample.hash cfg Sample.voter 5 initial w);
    reflexivity.
Defined.

(** ** Scenarios of the further properties *)

(** 23 words, the last two separated by two spaces, after a passphrase of
    eight characters: 24 pieces, the key is imported. *)
Lemma updateKey_counts_pieces_witness :
  let pieces := replicate 22 (units "abandon") ++ [[]; units "about"] in
  let mnemonic := 32%N :: join_units 32 pieces in
  length pieces = 24%nat
  ∧ updateKey (units "voter.json") (units "12345678") (units "12345678")
      mnemonic
    = KeyImported (units "voter.json") (units "12345678") mnemonic.
Proof.
  intros pieces mnemonic. split; [reflexivity|].
  apply (proj1 (proj1 (proj2 (proj2 (updateKey_counts_pieces
                                       (units "voter.json")
                                       (units "12345678"))))
                  ltac:(simpl; lia) mnemonic pieces
                  ltac:(discriminate) eq_refl eq_refl));
    reflexivity.
Defined.

(** With [--denoms "krw, usd"] the second code is [" usd"]: KRW passes. *)
Lemma denoms_filter_witness :
  let cfg := Sample.args "krw, usd" in
  denomArray cfg = ["krw"; " usd"]
  ∧ (filtered_out cfg "KRW" = false
     ↔ ∃ code, In code ["krw"; " usd"] ∧ toLowerCase code = toLowerCase "KRW").
Proof.
  intros cfg.
  apply (denoms_filter Sample.hash cfg ["krw"; " usd"] "KRW");
    [discriminate | reflexivity | reflexivity].
Defined.

Lemma reveal_was_committed_witness :
  let cfg := Sample.args "krw,usd" in
  let ws := [Sample.world 98 [Sample.krw; Sample.usd] 99] in
  ∃ x salt d v,
    MsgExchangeRateVote "1180.5" (Some "0") "ukrw" "terra1feeder"
      "terravaloper1"
    = MsgExchangeRateVote x (Some salt) d (terraAddress Sample.voter) v
    ∧ In (MsgExchangeRatePrevote (Sample.hash salt x d v) d
            (terraAddress Sample.voter) v)
         (confirmed_prevotes Sample.hash cfg Sample.voter 5 initial ws).
Proof.
  intros cfg ws.
  eapply (reveal_was_committed Sample.hash cfg Sample.voter 5 ws
            (Sample.world 103 [Sample.krw; Sample.usd] 104)).
  - vm_compute. reflexivity.
  - simpl. tauto.
  - reflexivity.
Defined.

Lemma sent_denoms_pass_filter_witness :
  let cfg := Sample.args "krw,usd" in
  let w := Sample.world 98 [Sample.krw; Sample.usd] 99 in
  ∃ ps p, getPrices (priceTime w) (settled w) = Returned ps
          ∧ In p ps
          ∧ In (toLowerCase (currency p)) (denomArray cfg)
          ∧ denom_of (MsgExchangeRatePrevote "1:1.10:uusd:terravaloper1"
                        "uusd" "terra1feeder" "terravaloper1")
            = "u" +:+ toLowerCase (currency p).
Proof.
  intros cfg w.
  eapply (sent_denoms_pass_filter Sample.hash cfg Sample.voter 5 initial w).
  - vm_compute. reflexivity.
  - simpl. tauto.
Defined.

Lemma confirmed_periods_increase_witness :
  let cfg := Sample.args "krw,usd" in
  let ws := [Sample.world 98 [Sample.krw; Sample.usd] 99;
             Sample.world 103 [Sample.krw] 104;
             Sample.world 104 [Sample.krw] 105;
             Sample.world 108 [Sample.krw; Sample.usd'] 110] in
  confirmed_periods Sample.hash cfg Sample.voter 5 initial ws = [19; 20; 22]
  ∧ StronglySorted Z.lt
      (confirmed_periods Sample.hash cfg Sample.voter 5 initial ws).
Proof.
  intros cfg ws. split; [reflexivity|].
  apply (confirmed_periods_increase Sample.hash cfg Sample.voter 5 ws);
    reflexivity.
Defined.

Lemma memory_after_confirmation_witness :
  let cfg := Sample.args "krw,usd" in
  let st := next (iteration Sample.hash cfg Sample.voter 5 initial
                    (Sample.world 98 [Sample.krw; Sample.usd] 99)) in
  let w := Sample.world 103 [Sample.usd'] 104 in
  let st' := next (iteration Sample.hash cfg Sample.voter 5 st w) in
  prevotePrices st' !! "krw" = prevotePrices st !! "krw"
  ∧ prevotePrices st' !! "usd" = Some "1.30".
Proof.
  intros cfg st w st'.
  destruct (memory_after_confirmation Sample.hash cfg Sample.voter 5 st w
              (prevote_forEach Sample.hash cfg Sample.voter (salts w)
                 [Sample.usd'])
              {| tx_code := None; height := 104 |} eq_refl)
    as (ps & GP & Miss & Hit).
  injection GP as <-. split.
  - apply (Miss "krw"). intros p [<-|[]] _. discriminate.
  - apply (Hit [] Sample.usd' []); [reflexivity | reflexivity |].
    intros p' [].
Defined.

Lemma transaction_shape_witness :
  let cfg := Sample.args "krw,usd" in
  let st := next (iteration Sample.hash cfg Sample.voter 5 initial
                    (Sample.world 98 [Sample.krw; Sample.usd] 99)) in
  let w := Sample.world 103 [Sample.krw; Sample.usd] 104 in
  ∃ req,
    sent (iteration Sample.hash cfg Sample.voter 5 st w) = Some req
    ∧ length (msg (tx req)) = 4%nat
    ∧ ∃ h ps votes prevotes,
        latestBlock w = Some h
        ∧ getPrices (priceTime w) (settled w) = Returned ps
        ∧ msg (tx req) = votes ++ prevotes
        ∧ forallb is_vote votes = true
        ∧ forallb (fun m => negb (is_vote m)) prevotes = true
        ∧ length prevotes
          = (length (kept cfg ps) * length (valAddrs cfg Sample.voter))%nat
        ∧ length votes
          = if and_then (prevotePeriod st) (fun p => h / 5 - p =? 1)
            then (length (kept cfg ps)
                  * length (valAddrs cfg Sample.voter))%nat
            else O.
Proof.
  intros cfg st w. eexists. split; [vm_compute; reflexivity|].
  split; [reflexivity|].
  apply (transaction_shape Sample.hash cfg Sample.voter 5 st w).
  reflexivity.
Defined.

(** A broadcast that fails without an HTTP response: the request was
    posted, and the loop starts over without sleeping. *)
Lemma ending_after_send_witness :
  let cfg := Sample.args "krw,usd" in
  let w := Sample.with_broadcast BroadcastNoResponse
             (Sample.world 98 [Sample.krw] 99) in
  let it := iteration Sample.hash cfg Sample.voter 5 initial w in
  is_Some (sent it)
  ∧ ∃ m, ending it = Restart m ∧ delay it = None ∧ next it = initial.
Proof.
  intros cfg w it. split; [by eexists|].
  unshelve eapply
    (proj1 (ending_after_send Sample.hash cfg Sample.voter 5 initial w _ _));
    [| vm_compute; reflexivity | left; reflexivity].
Defined.

(** A prevote included at height 4, in period 0, and the tick at height 8,
    in period 1: that tick sends a prevote and no vote. *)
Lemma zero_period_is_no_period_witness :
  let cfg := Sample.args "krw,usd" in
  let st := next (iteration Sample.hash cfg Sample.voter 5 initial
                    (Sample.world 3 [Sample.krw] 4)) in
  let w := Sample.world 8 [Sample.krw] 9 in
  prevotePeriod st = Some 0
  ∧ (msg ∘ tx) <$> sent (iteration Sample.hash cfg Sample.voter 5 st w)
    = Some [MsgExchangeRatePrevote "0:1180.5:ukrw:terravaloper1" "ukrw"
              "terra1feeder" "terravaloper1"]
  ∧ sent (iteration Sample.hash cfg Sample.voter 5 st w)
    = sent (iteration Sample.hash cfg Sample.voter 5
              (forget_period st) w).
Proof.
  intros cfg st w. split; [reflexivity|]. split; [reflexivity|].
  apply (zero_period_is_no_period Sample.hash cfg Sample.voter 5 st w).
  reflexivity.
Defined.
